(** * Indirect emissions modeller: the estimation engine of [app.py]

    A shallow embedding of the three page fragments of [app.py]
    ([fn_FormStaff], [fn_FormCommute], [fn_FormWfh]) and of the commit
    callback [fn_Refresher], with the properties of the specification
    stated over them.

    Conventions of the embedding:
    - Python [int] is [Z]; Python and NumPy floats are exact rationals [Q]
      (the arithmetic of the source is read over the rationals, so float
      rounding error is not modelled), except in the module [Binary64],
      which reads the staffing fragment over the doubles themselves;
    - a raised exception is a [Raise] result;
    - the configuration dictionary [params_d] (loaded from [config.yml],
      which is not part of the sources) is a record [Params] of which every
      function is a parameter;
    - the shared generator [rng] is a tape of naturals threaded through the
      calls that draw from it. *)

From Stdlib Require Import PrimFloat FloatOps SpecFloat.
From Stdlib Require Import String ZArith QArith Qround Qabs List Bool Lia Lqa.
Import ListNotations.

Local Open Scope Z_scope.
Local Open Scope Q_scope.

(** ** Python values and exceptions *)

Inductive exn : Type :=
| ZeroDivisionError
| IndexError
| ValueError
| KeyError
| OverflowError
| StreamlitAPIException.

Inductive result (A : Type) : Type :=
| Ok (a : A)
| Raise (e : exn).

Arguments Ok {A} a.
Arguments Raise {A} e.

Definition bind {A B : Type} (c : result A) (k : A -> result B) : result B :=
  match c with
  | Ok a => k a
  | Raise e => Raise e
  end.

Notation "x <- c ;; k" := (bind c (fun x => k))
  (at level 61, c at next level, right associativity).

(** [a / b] on numbers: raises on a zero divisor. *)
Definition py_div (a b : Q) : result Q :=
  if Qeq_bool b 0 then Raise ZeroDivisionError else Ok (a / b).

(** [int(x)]: truncation toward zero. *)
Definition py_int (x : Q) : Z := Z.quot (Qnum x) (Zpos (Qden x)).

(** [np.floor(x)]. *)
Definition np_floor (x : Q) : Z := Qfloor x.

(** [x for y in range(n)]: [n] copies of [x], none when [n <= 0]. *)
Definition copies {A : Type} (x : A) (n : Z) : list A := repeat x (Z.to_nat n).

(** [len(l)] as a Python int. *)
Definition len {A : Type} (l : list A) : Z := Z.of_nat (length l).

(** [sum(l)] over numbers. *)
Definition py_sum (l : list Q) : Q := fold_left Qplus l 0.

(** [l[ix]] for a non-negative index. *)
Definition py_index {A : Type} (l : list A) (ix : nat) : result A :=
  match nth_error l ix with
  | Some v => Ok v
  | None => Raise IndexError
  end.

(** [l[-1]]. *)
Definition py_last {A : Type} (l : list A) : result A :=
  match rev l with
  | v :: _ => Ok v
  | [] => Raise IndexError
  end.

(** [l[:-2]]. *)
Definition drop_last2 {A : Type} (l : list A) : list A :=
  firstn (length l - 2) l.

(** Rounding of a rational to the nearest integer, ties to the even one
    ([np.rint]). *)
Definition round_half_even (x : Q) : Z :=
  let f := Qfloor x in
  let r := x - inject_Z f in
  match Qcompare r (1 # 2) with
  | Lt => f
  | Gt => (f + 1)%Z
  | Eq => if Z.even f then f else (f + 1)%Z
  end.

(** [np.round(x, decimals)]: scale, round to nearest even, scale back. *)
Definition np_round (x : Q) (decimals : nat) : Q :=
  let s := inject_Z (10 ^ Z.of_nat decimals) in
  inject_Z (round_half_even (x * s)) / s.

(** [np.linspace(start, stop, num, endpoint)]: [arange(num) * step + start],
    the last sample being overwritten by [stop] when the endpoint is
    included. *)
Definition linspace (start stop : Q) (num : nat) (endpoint : bool) : list Q :=
  let div := if endpoint then (num - 1)%nat else num in
  let step := (stop - start) / inject_Z (Z.of_nat div) in
  let y := map (fun i => inject_Z (Z.of_nat i) * step + start) (seq 0 num) in
  if endpoint && (1 <? num)%nat then removelast y ++ [stop] else y.

(** The bucket-fill loop shared in shape by the staffing and the commute
    fragments:
<<
    for ix, ix2 in enumerate(table):
        group += [lims[ix] for y in range(int(scale * ix2))]
>>
    [lims[ix]] is only evaluated when the range is not empty. *)
Fixpoint fill_buckets (lims : list Q) (scale : Z) (ix : nat) (table : list Q)
    (group : list Q) : result (list Q) :=
  match table with
  | [] => Ok group
  | ix2 :: rest =>
      let n := py_int (inject_Z scale * ix2) in
      if (n <=? 0)%Z then fill_buckets lims scale (S ix) rest group
      else
        v <- py_index lims ix ;;
        fill_buckets lims scale (S ix) rest (group ++ copies v n)
  end.

(** ** The configuration dictionary [params_d] *)

Inductive Closeness : Type := VeryClose | Close | Far | Medium.

Inductive CarRegion : Type :=
| UnitedKingdom | England | SouthEast | NorthEast | NorthWest
| NorthernIreland | Scotland | SouthWest | Wales.

Record Params : Type := {
  MaxWorkDaysPerWeek : Q;
  MaxWorkDaysPerYear : Q;
  MaxWorkDaysPerMonth : Q;
  MaxHoursPerWeek : Q;
  MinHoursPerWeek : Q;
  VeryCloseList : list Q;
  CloseList : list Q;
  FarList : list Q;
  MediumList : list Q;
  PetrolRatio : CarRegion -> Q;
  CarPetrolConvFactor : Q;
  CarDieselConvFactor : Q;
  BusConvFactor : Q;
  TrainConvFactor : Q;
  ItOptions_mobile_phone : Q;
  ItOptions_laptop : Q;
  ItOptions_desktop_monitor : Q;
  ScreenOptions : list (string * Q);
  ElectricConvFactor : Q;
  LightAllowance : Q;
  HeatAllowance : Q;
  HeatConvFactor : Q
}.

(** [params_d[radioCloseFar_d[radioCloseFar]]]. *)
Definition closeness_table (params_d : Params) (c : Closeness) : list Q :=
  match c with
  | VeryClose => VeryCloseList params_d
  | Close => CloseList params_d
  | Far => FarList params_d
  | Medium => MediumList params_d
  end.

(** ** [st.session_state] *)

(** The float-valued session fields. *)
Inductive numkey : Type :=
| sessionFteTotal
| sessionStaffAbsenceRate
| sessionStaffTotalHoursPerYear
| sessionStaffOfficeRate
| sessionEmissionsTransport
| sessionEmissionsLight
| sessionEmissionsIt
| sessionEmissionsHeat
| sessionEmissionsWfh
| sessionEmissionsTotal.

(** The int-valued session fields. *)
Inductive intkey : Type :=
| sessionStaffTotal
| sessionDistanceTotal.

Scheme Equality for numkey.
Scheme Equality for intkey.

(** A row of [sessionLog]: the header written at start-up, or the five
    values appended by [fn_Refresher]. *)
Inductive log_row : Type :=
| Header (names : list string)
| Row (fte : Q) (distance : Z) (transport wfh total : Q).

(** The session dictionary, once initialised: every key read by the engine
    is present. *)
Record SessionState : Type := {
  num : numkey -> Q;
  int : intkey -> Z;
  sessionLog : list log_row
}.

(** One [[sessionObjectName, newValue]] entry of a commit list. *)
Inductive commit : Type :=
| SetNum (k : numkey) (v : Q)
| SetInt (k : intkey) (v : Z).

(** [st.session_state[k] = v]. *)
Definition set_num (k : numkey) (v : Q) (st : SessionState) : SessionState :=
  {| num := fun k' => if numkey_beq k k' then v else num st k';
     int := int st;
     sessionLog := sessionLog st |}.

Definition set_int (k : intkey) (v : Z) (st : SessionState) : SessionState :=
  {| num := num st;
     int := fun k' => if intkey_beq k k' then v else int st k';
     sessionLog := sessionLog st |}.

Definition assign (st : SessionState) (sessionObj : commit) : SessionState :=
  match sessionObj with
  | SetNum k v => set_num k v st
  | SetInt k v => set_int k v st
  end.

(** [st.session_state['sessionLog'].append(row)]. *)
Definition log_append (row : log_row) (st : SessionState) : SessionState :=
  {| num := num st; int := int st; sessionLog := sessionLog st ++ [row] |}.

(** [fn_Refresher(placeholder_obj, commit_obj)], without the rendering of
    the sidebar metrics and of the download button. *)
Definition fn_Refresher (commit_obj : option (list commit))
    (st : SessionState) : SessionState :=
  let st1 :=
    match commit_obj with
    | Some l => fold_left assign l st
    | None => st
    end in
  let st2 :=
    set_num sessionEmissionsTotal
      (num st1 sessionEmissionsTransport + num st1 sessionEmissionsWfh) st1 in
  log_append
    (Row (num st2 sessionFteTotal)
         (int st2 sessionDistanceTotal)
         (num st2 sessionEmissionsTransport)
         (num st2 sessionEmissionsWfh)
         (num st2 sessionEmissionsTotal))
    st2.

(** The three fragments, and the fields each one commits (section 3 of the
    specification; [sessionEmissionsTotal] is the aggregate and belongs to
    none). *)
Inductive Fragment : Type := Staff | Commute | Wfh.

Definition num_owner (k : numkey) : option Fragment :=
  match k with
  | sessionFteTotal | sessionStaffAbsenceRate
  | sessionStaffTotalHoursPerYear => Some Staff
  | sessionStaffOfficeRate | sessionEmissionsTransport => Some Commute
  | sessionEmissionsLight | sessionEmissionsIt | sessionEmissionsHeat
  | sessionEmissionsWfh => Some Wfh
  | sessionEmissionsTotal => None
  end.

Definition int_owner (k : intkey) : option Fragment :=
  match k with
  | sessionStaffTotal => Some Staff
  | sessionDistanceTotal => Some Commute
  end.

(** ** FORM - STAFF *)

Record StaffInputs : Type := {
  total_staff_num : Z;       (* slider 'Staff number' *)
  part_time_slider : Z;      (* slider '% of part-time workers', 0..99 *)
  fteHoursPerWeek : Z;       (* slider 'Full time hours/week', 30..48 *)
  daysHolidayPerYear : Z;    (* slider, 20..50 *)
  absenceDaysPerYear : Q     (* number input, 0..10 by 0.5 *)
}.

Record StaffValues : Type := {
  singleFtePerYear : Q;
  total_staff_group : list Q;
  newFteTotal : Q;
  newStaffTotal : Z;
  newAbsenceRate : Q;
  newTtlHrsPerYr : Q
}.

Section FormStaff.
Variable params_d : Params.
Variable inp : StaffInputs.

Definition part_time_pct : Q := inject_Z (part_time_slider inp) / 100.

(** The floor is that of the exact product.  Where the exact product is
    a whole number the product of the doubles can lie just under it, and
    the source then counts one member less (28 for 100 staff at 29 %);
    [Binary64.part_time_num] is the count of the doubles. *)
Definition part_time_num : Z :=
  np_floor (inject_Z (total_staff_num inp) * part_time_pct).

Definition full_time_num : Z := (total_staff_num inp - part_time_num)%Z.

Definition part_time_group_lims : list Q :=
  linspace (MinHoursPerWeek params_d) (inject_Z (fteHoursPerWeek inp)) 5 false.

Definition part_time_group : result (list Q) :=
  g <- fill_buckets part_time_group_lims part_time_num 0
         [1 # 10; 2 # 10; 4 # 10; 2 # 10] [] ;;
  v <- py_index part_time_group_lims 4 ;;
  Ok (g ++ copies v (part_time_num - len g)).

Definition synth_staff_group : result (list Q) :=
  ptg <- part_time_group ;;
  Ok (copies (inject_Z (fteHoursPerWeek inp)) full_time_num ++ ptg).

Definition staff_values : result StaffValues :=
  perDay <- py_div (inject_Z (fteHoursPerWeek inp)) (MaxWorkDaysPerWeek params_d) ;;
  let single :=
    perDay * (MaxWorkDaysPerYear params_d
              - inject_Z (daysHolidayPerYear inp) - absenceDaysPerYear inp) in
  group <- synth_staff_group ;;
  fte <- py_div (py_sum group) (MaxHoursPerWeek params_d) ;;
  let newFte := np_round fte 2 in
  perDay' <- py_div (inject_Z (fteHoursPerWeek inp)) (MaxWorkDaysPerWeek params_d) ;;
  rate <- py_div single (perDay' * MaxWorkDaysPerYear params_d) ;;
  Ok {| singleFtePerYear := single;
        total_staff_group := group;
        newFteTotal := newFte;
        newStaffTotal := total_staff_num inp;
        newAbsenceRate := rate;
        newTtlHrsPerYr := single * newFte |}.

Definition staff_commit_l (v : StaffValues) : list commit :=
  [ SetNum sessionFteTotal (newFteTotal v);
    SetInt sessionStaffTotal (newStaffTotal v);
    SetNum sessionStaffAbsenceRate (newAbsenceRate v);
    SetNum sessionStaffTotalHoursPerYear (newTtlHrsPerYr v) ].

(** [fn_FormStaff()]: [button] is the state of the 'Confirm' button. *)
Definition fn_FormStaff (button : bool) (st : SessionState)
    : result SessionState :=
  v <- staff_values ;;
  Ok (if button then fn_Refresher (Some (staff_commit_l v)) st else st).
End FormStaff.

(** ** FORM - COMMUTE OPTIONS *)

(** [min(t)] and [max(t)] of a two-ended slider. *)
Definition tmin (t : Z * Z) : Z := Z.min (fst t) (snd t).
Definition tmax (t : Z * Z) : Z := Z.max (fst t) (snd t).

Definition Qlt_bool (a b : Q) : bool := negb (Qle_bool b a).

Record CommuteInputs : Type := {
  sliderDistance : Z * Z;      (* two-ended slider, 1..1000 *)
  sliderOfficeVisits : Z;      (* slider, 1..MaxVisitsPerMonth *)
  radioCloseFar : Closeness;
  sliderTransMix : Z * Z;      (* two-ended slider, 1..100 *)
  sliderBusTrain : Z;          (* slider, 1..100-max(sliderTransMix) *)
  selectCarRegion : CarRegion
}.

Record CommuteValues : Type := {
  distance_group : list Q;
  distanceCommute : list Q;
  newOfficeRate : Q;
  newDistanceTotal : Z;
  newEmissionsTransport : Q
}.

(** [st.slider(label, min_value, max_value, value)] on integers, for a
    slider whose bounds are computed at run time.  Streamlit refuses a
    slider whose [min_value] is not less than its [max_value]
    ([StreamlitAPIException]); otherwise the call gives the position the
    user has chosen ([position]; on the first run it is the default
    [value]). *)
Definition st_slider (min_value max_value value position : Z) : result Z :=
  if (max_value <=? min_value)%Z
  then Raise StreamlitAPIException
  else Ok position.

Section FormCommute.
Variable params_d : Params.
Variable inp : CommuteInputs.

Definition maxCommuteDistance : Z := (tmax (sliderDistance inp) * 4)%Z.

Definition distance_group_lims : list Q :=
  linspace (inject_Z (tmin (sliderDistance inp)))
           (inject_Z (tmax (sliderDistance inp))) 20 true.

(** The synthesized population, for the headcount [staffTotal] read from
    [st.session_state.sessionStaffTotal]. *)
Definition synth_distance_group (staffTotal : Z) : result (list Q) :=
  g <- fill_buckets distance_group_lims (tmax (sliderDistance inp)) 0
         (drop_last2 (closeness_table params_d (radioCloseFar inp))) [] ;;
  v <- py_last distance_group_lims ;;
  Ok (g ++ copies v (staffTotal - len g)).

Definition commuteRaw (group : list Q) : list Q :=
  map (fun d => d * 2 * inject_Z (sliderOfficeVisits inp)) group.

Definition commuteCapped (raw : list Q) : list Q :=
  map (fun d => if Qlt_bool d (inject_Z maxCommuteDistance)
                then d else inject_Z maxCommuteDistance) raw.

Definition walk_pct : Z := tmin (sliderTransMix inp).
Definition car_pct : Z := (tmax (sliderTransMix inp) - tmin (sliderTransMix inp))%Z.
Definition bus_pct : Z := sliderBusTrain inp.
Definition train_pct : Z := (100 - tmax (sliderTransMix inp) - bus_pct)%Z.

(** The emissions block: [distanceTotal] is the value it reads from
    [st.session_state['sessionDistanceTotal']]. *)
Definition transport_emissions (distanceTotal : Z) : Q :=
  let emissionsCar := inject_Z (distanceTotal * car_pct) in
  let emissionsCarPetrol :=
    emissionsCar * PetrolRatio params_d (selectCarRegion inp) in
  let emissionsCarDiesel := emissionsCar - emissionsCarPetrol in
  py_sum
    [ emissionsCarPetrol * CarPetrolConvFactor params_d;
      emissionsCarDiesel * CarDieselConvFactor params_d;
      inject_Z (distanceTotal * bus_pct) * BusConvFactor params_d;
      inject_Z (distanceTotal * train_pct) * TrainConvFactor params_d ].

Definition commute_values (st : SessionState) : result CommuteValues :=
  group <- synth_distance_group (int st sessionStaffTotal) ;;
  let capped := commuteCapped (commuteRaw group) in
  rate <- py_div (inject_Z (sliderOfficeVisits inp)) (MaxWorkDaysPerMonth params_d) ;;
  (* the bus/train slider, whose position is [sliderBusTrain inp] *)
  _ <- st_slider 1 (100 - tmax (sliderTransMix inp))
         (py_int (inject_Z (100 - tmax (sliderTransMix inp)) / 2))
         (sliderBusTrain inp) ;;
  Ok {| distance_group := group;
        distanceCommute := capped;
        newOfficeRate := np_round rate 4;
        newDistanceTotal := py_int (py_sum capped);
        newEmissionsTransport :=
          transport_emissions (int st sessionDistanceTotal) |}.

Definition commute_commit_l (v : CommuteValues) : list commit :=
  [ SetNum sessionStaffOfficeRate (newOfficeRate v);
    SetInt sessionDistanceTotal (newDistanceTotal v);
    SetNum sessionEmissionsTransport (newEmissionsTransport v) ].

(** [fn_FormCommute()]. *)
Definition fn_FormCommute (button : bool) (st : SessionState)
    : result SessionState :=
  v <- commute_values st ;;
  Ok (if button then fn_Refresher (Some (commute_commit_l v)) st else st).
End FormCommute.

(** ** The shared generator [rng] *)

(** The generator is a tape of naturals and a read position; a draw reads
    the tape and advances.  Every outcome NumPy can produce is produced by
    some tape. *)
Record Rng : Type := { tape : nat -> nat; pos : nat }.

(** Computations that draw from [rng] and may raise. *)
Definition M (A : Type) : Type := Rng -> result (A * Rng).

Definition ret {A : Type} (a : A) : M A := fun g => Ok (a, g).

Definition bindM {A B : Type} (c : M A) (k : A -> M B) : M B :=
  fun g =>
    match c g with
    | Ok (a, g') => k a g'
    | Raise e => Raise e
    end.

Definition raise {A : Type} (e : exn) : M A := fun _ => Raise e.

Definition lift {A : Type} (r : result A) : M A :=
  fun g => match r with Ok a => Ok (a, g) | Raise e => Raise e end.

Notation "x <~ c ;; k" := (bindM c (fun x => k))
  (at level 61, c at next level, right associativity).

Definition draw : M nat :=
  fun g => Ok (tape g (pos g), {| tape := tape g; pos := S (pos g) |}).

(** [rng.integers(low=low, high=high)]: an integer of [[low, high)]. *)
Definition rng_integers (low high : Z) : M Z :=
  if (high <=? low)%Z then raise ValueError
  else n <~ draw ;; ret (low + Z.of_nat n mod (high - low))%Z.

(** [size] independent picks among [candidates]. *)
Fixpoint picks {A : Type} (candidates : list A) (dflt : A) (size : nat)
    : M (list A) :=
  match size with
  | O => ret []
  | S size' =>
      n <~ draw ;;
      rest <~ picks candidates dflt size' ;;
      ret (nth (n mod length candidates) candidates dflt :: rest)
  end.

(** The elements of [a] whose probability is not zero. *)
Fixpoint support {A : Type} (a : list A) (p : list Q) : list A :=
  match a, p with
  | x :: a', px :: p' =>
      if Qlt_bool 0 px then x :: support a' p' else support a' p'
  | _, _ => []
  end.

(** [rng.choice(a, size=size, replace=True, p=p)]: the probabilities, when
    given, must match [a] in length, be non-negative and sum to 1; an empty
    [a] is only accepted when no sample is taken. *)
Definition rng_choice {A : Type} (a : list A) (p : option (list Q))
    (size : Z) : M (list A) :=
  if (size <? 0)%Z then raise ValueError
  else
    match p with
    | Some ps =>
        if negb (length ps =? length a)%nat
           || existsb (fun x => Qlt_bool x 0) ps
           || negb (Qeq_bool (py_sum ps) 1)
        then raise ValueError
        else
          match support a ps with
          | [] => if (size =? 0)%Z then ret [] else raise ValueError
          | x :: _ => picks (support a ps) x (Z.to_nat size)
          end
    | None =>
        match a with
        | [] => if (size =? 0)%Z then ret [] else raise ValueError
        | x :: _ => picks a x (Z.to_nat size)
        end
    end.

(** ** FORM - WFH OPTIONS *)

Record WfhInputs : Type := {
  sliderLaptopPct : Z;            (* '% of staff with laptops', 0..100 *)
  sliderPhonePct : Z;             (* '% of staff with mobile phones', 0..100 *)
  optionsMonitor : list string;   (* keys of ScreenOptions *)
  sliderHeatMonths : Z * Z;       (* two-ended slider, 0..100 *)
  sliderHeatHome : Z * Z;         (* two-ended slider, 0..100 *)
  sliderHeatSharing : Z           (* slider, 0..100 *)
}.

Record WfhValues : Type := {
  heatGroup : list Q;
  newEmissionsIt : Q;
  newEmissionsLight : Q;
  newEmissionsHeat : Q;
  newEmissionsWfh : Q
}.

(** [d[key]] on a mapping loaded from the configuration. *)
Fixpoint dict_get (d : list (string * Q)) (key : string) : result Q :=
  match d with
  | [] => Raise KeyError
  | (k, v) :: d' => if String.eqb k key then Ok v else dict_get d' key
  end.

(** [[i * j * k for i, j, k in zip(a, b, c)]]. *)
Fixpoint zip_mul3 (a : list Z) (b c : list Q) : list Q :=
  match a, b, c with
  | i :: a', j :: b', k :: c' => inject_Z i * j * k :: zip_mul3 a' b' c'
  | _, _, _ => []
  end.

Section FormWfh.
Variable params_d : Params.
Variable inp : WfhInputs.
Variable st : SessionState.

Definition sliderLaptop : Q := inject_Z (sliderLaptopPct inp) / 100.
Definition sliderPhone : Q := inject_Z (sliderPhonePct inp) / 100.

Definition wfhHours : Q :=
  num st sessionStaffTotalHoursPerYear * (1 - num st sessionStaffOfficeRate).

(** The counts below floor or truncate the exact products.  Where an
    exact product is a whole number the product of the doubles can lie
    just under it, and the source then counts one less (28 phones for 100
    staff at 29 %, 9 heating members for 100 staff at 90 %); the
    statements about these counts allow for both. *)
Definition numLaptop : Z :=
  np_floor (inject_Z (int st sessionStaffTotal) * sliderLaptop).
Definition numDesktop : Z := (int st sessionStaffTotal - numLaptop)%Z.
Definition numPhone : Z :=
  np_floor (inject_Z (int st sessionStaffTotal) * sliderPhone).

Definition phoneGroupRaw : Q :=
  ItOptions_mobile_phone params_d * inject_Z numPhone.

Definition computerGroupRaw : Q :=
  (wfhHours * sliderLaptop * ItOptions_laptop params_d)
  + (wfhHours * (1 - sliderLaptop) * ItOptions_desktop_monitor params_d).

(** The loop over the selected monitor options. *)
Fixpoint monitor_loop (options : list string) (monitorGroupRaw : Q) : M Q :=
  match options with
  | [] => ret monitorGroupRaw
  | this_option :: rest =>
      opt_ttl <~ rng_integers 1
                   (py_int (100 / inject_Z (len (optionsMonitor inp) + 1))) ;;
      factor <~ lift (dict_get (ScreenOptions params_d) this_option) ;;
      monitor_loop rest
        (monitorGroupRaw + wfhHours * (inject_Z opt_ttl / 100) * factor)
  end.

Definition numNonZeroHeat : Z :=
  py_int (inject_Z (int st sessionStaffTotal)
          * (1 - inject_Z (tmin (sliderHeatMonths inp)) / 100)).

Definition heatMonthsList : list Z :=
  copies 1%Z (tmax (sliderHeatMonths inp) - tmin (sliderHeatMonths inp))
  ++ copies 2%Z (100 - tmax (sliderHeatMonths inp)).

Definition wfh_values : M WfhValues :=
  monitorGroupRaw <~ monitor_loop (optionsMonitor inp) 0 ;;
  let It :=
    py_sum [computerGroupRaw; phoneGroupRaw; monitorGroupRaw]
    * ElectricConvFactor params_d in
  let Light :=
    ElectricConvFactor params_d * wfhHours * LightAllowance params_d * (1 # 2) in
  heatMonthsRaw <~ rng_choice heatMonthsList None numNonZeroHeat ;;
  heatHomeRaw <~
    rng_choice [1 # 4; 1 # 2; 1]
      (Some [ inject_Z (tmin (sliderHeatHome inp)) / 100;
              inject_Z (tmax (sliderHeatHome inp) - tmin (sliderHeatHome inp)) / 100;
              inject_Z (100 - tmax (sliderHeatHome inp)) / 100 ])
      numNonZeroHeat ;;
  heatShareRaw <~
    rng_choice [1 # 2; 1]
      (Some [ inject_Z (sliderHeatSharing inp) / 100;
              inject_Z (100 - sliderHeatSharing inp) / 100 ])
      numNonZeroHeat ;;
  let group := zip_mul3 heatMonthsRaw heatHomeRaw heatShareRaw in
  perHead <~ lift (py_div (py_sum group) (inject_Z (int st sessionStaffTotal))) ;;
  let Heat :=
    perHead * wfhHours * HeatAllowance params_d * HeatConvFactor params_d in
  ret {| heatGroup := group;
         newEmissionsIt := It;
         newEmissionsLight := Light;
         newEmissionsHeat := Heat;
         newEmissionsWfh := py_sum [It; Light; Heat] |}.

Definition wfh_commit_l (v : WfhValues) : list commit :=
  [ SetNum sessionEmissionsLight (newEmissionsLight v);
    SetNum sessionEmissionsIt (newEmissionsIt v);
    SetNum sessionEmissionsHeat (newEmissionsHeat v);
    SetNum sessionEmissionsWfh (newEmissionsWfh v) ].

(** [fn_FormWfh()]. *)
Definition fn_FormWfh (button : bool) : M SessionState :=
  v <~ wfh_values ;;
  ret (if button then fn_Refresher (Some (wfh_commit_l v)) st else st).
End FormWfh.

(** ** Runs of the application *)

(** One confirmed run of a fragment: the fragment is evaluated with its
    'Confirm' button pressed and returns the committed session. *)
Inductive confirms : Fragment -> SessionState -> SessionState -> Prop :=
| confirm_staff params_d inp st st' :
    fn_FormStaff params_d inp true st = Ok st' ->
    confirms Staff st st'
| confirm_commute params_d inp st st' :
    fn_FormCommute params_d inp true st = Ok st' ->
    confirms Commute st st'
| confirm_wfh params_d inp st g st' g' :
    fn_FormWfh params_d inp st true g = Ok (st', g') ->
    confirms Wfh st st'.

(** Any sequence of confirmed runs. *)
Inductive runs : SessionState -> SessionState -> Prop :=
| runs_nil st : runs st st
| runs_step f st st' st'' : runs st st' -> confirms f st' st'' -> runs st st''.

(** The row [fn_Refresher] records for a session. *)
Definition aggregate_row (st : SessionState) : log_row :=
  Row (num st sessionFteTotal)
      (int st sessionDistanceTotal)
      (num st sessionEmissionsTransport)
      (num st sessionEmissionsWfh)
      (num st sessionEmissionsTotal).

(** ** Notions used by the statements *)

(** Number of members bucket [ix2] receives from [fill_buckets]. *)
Definition bucket_count (scale : Z) (ix2 : Q) : nat :=
  Z.to_nat (py_int (inject_Z scale * ix2)).

Definition bucket_total (scale : Z) (table : list Q) : nat :=
  list_sum (map (bucket_count scale) table).

Definition in_range (lo hi x : Q) : Prop := lo <= x /\ x <= hi.

(** The staffing formulas as section 4.1 of the specification words them. *)
Definition spec_single_fte_hours_per_year
    (full_time_weekly_hours max_work_days_per_week max_work_days_per_year
     holiday_days absence_days : Q) : Q :=
  (full_time_weekly_hours / max_work_days_per_week)
  * (max_work_days_per_year - holiday_days - absence_days).

(** The transport emissions as section 4.2 of the specification words them:
    each distance term is [total_distance * mode_fraction]. *)
Definition spec_transport_emissions (params_d : Params) (inp : CommuteInputs)
    (total_distance : Z) : Q :=
  let mode_distance (pct : Z) := inject_Z total_distance * (inject_Z pct / 100) in
  let car_distance := mode_distance (car_pct inp) in
  let petrol_distance := car_distance * PetrolRatio params_d (selectCarRegion inp) in
  let diesel_distance := car_distance - petrol_distance in
  (petrol_distance * CarPetrolConvFactor params_d)
  + (diesel_distance * CarDieselConvFactor params_d)
  + (mode_distance (bus_pct inp) * BusConvFactor params_d)
  + (mode_distance (train_pct inp) * TrainConvFactor params_d).

(** ** An example configuration and session

    [config.yml] is not part of the sources; the following configuration
    has the shape the code expects (twenty bucket proportions per closeness
    table, proportions summing to 1) and is used to run the fragments on
    concrete inputs. *)

Definition percents (l : list Z) : list Q := map (fun n => Qmake n 100) l.

Definition example_params : Params :=
  {| MaxWorkDaysPerWeek := 5;
     MaxWorkDaysPerYear := 253;
     MaxWorkDaysPerMonth := 21;
     MaxHoursPerWeek := 40;
     MinHoursPerWeek := 8;
     VeryCloseList :=
       percents [30; 20; 15; 10; 5; 5; 3; 3; 2; 2; 1; 1; 1; 1; 1; 0; 0; 0; 0; 0]%Z;
     CloseList :=
       percents [10; 15; 20; 15; 10; 8; 6; 4; 3; 2; 2; 1; 1; 1; 1; 1; 0; 0; 0; 0]%Z;
     FarList :=
       percents [1; 1; 2; 2; 3; 4; 5; 6; 8; 10; 12; 12; 10; 8; 6; 4; 3; 2; 1; 0]%Z;
     MediumList :=
       percents [5; 5; 8; 10; 12; 12; 10; 8; 6; 5; 4; 4; 3; 2; 2; 1; 1; 1; 1; 0]%Z;
     PetrolRatio := fun _ => 6 # 10;
     CarPetrolConvFactor := 170;
     CarDieselConvFactor := 160;
     BusConvFactor := 100;
     TrainConvFactor := 35;
     ItOptions_mobile_phone := 1;
     ItOptions_laptop := 5 # 100;
     ItOptions_desktop_monitor := 15 # 100;
     ScreenOptions :=
       [("1 extra monitor"%string, 3 # 100); ("2 extra monitors"%string, 6 # 100)];
     ElectricConvFactor := 200;
     LightAllowance := 1 # 100;
     HeatAllowance := 1;
     HeatConvFactor := 180 |}.

(** A session as the start-up code leaves it: the log holds its header row
    only, nothing has been committed yet; [staffTotal] is the headcount. *)
Definition fresh_session (staffTotal : Z) : SessionState :=
  {| num := fun k =>
       match k with
       | sessionStaffAbsenceRate => 1
       | sessionStaffOfficeRate => 4 # 21
       | sessionStaffTotalHoursPerYear => 2024
       | _ => 0
       end;
     int := fun k =>
       match k with
       | sessionStaffTotal => staffTotal
       | sessionDistanceTotal => 0%Z
       end;
     sessionLog :=
       [Header ["TotalFte"; "TotalDistance"; "TotalEmissionsCommute";
                "TotalEmissionsWfh"; "TotalEmissions"]%string] |}.

Definition example_staff_inputs : StaffInputs :=
  {| total_staff_num := 100;
     part_time_slider := 25;
     fteHoursPerWeek := 35;
     daysHolidayPerYear := 25;
     absenceDaysPerYear := 0 |}.

Definition example_commute_inputs : CommuteInputs :=
  {| sliderDistance := (1, 50)%Z;
     sliderOfficeVisits := 4;
     radioCloseFar := VeryClose;
     sliderTransMix := (33, 67)%Z;
     sliderBusTrain := 16;
     selectCarRegion := UnitedKingdom |}.

(** The same, with the distance slider moved to 1..1000. *)
Definition long_range_commute_inputs : CommuteInputs :=
  {| sliderDistance := (1, 1000)%Z;
     sliderOfficeVisits := 4;
     radioCloseFar := VeryClose;
     sliderTransMix := (33, 67)%Z;
     sliderBusTrain := 16;
     selectCarRegion := UnitedKingdom |}.

Definition example_wfh_inputs : WfhInputs :=
  {| sliderLaptopPct := 75;
     sliderPhonePct := 50;
     optionsMonitor := ["1 extra monitor"%string];
     sliderHeatMonths := (30, 80)%Z;
     sliderHeatHome := (30, 60)%Z;
     sliderHeatSharing := 33 |}.

(** A generator whose tape is constantly 0. *)
Definition zero_rng : Rng := {| tape := fun _ => 0%nat; pos := 0 |}.

(** A staffing run with no staff at all. *)
Definition empty_staff_inputs : StaffInputs :=
  {| total_staff_num := 0;
     part_time_slider := 25;
     fteHoursPerWeek := 35;
     daysHolidayPerYear := 25;
     absenceDaysPerYear := 0 |}.

(** Inputs of the WFH fragment that are valid for section 7 of the
    specification: non-negative factors in the configuration, percentages
    within their sliders, committed hours and rates within their ranges. *)
Definition wfh_inputs_valid (params_d : Params) (inp : WfhInputs)
    (st : SessionState) : Prop :=
  0 <= ItOptions_mobile_phone params_d
  /\ 0 <= ItOptions_laptop params_d
  /\ 0 <= ItOptions_desktop_monitor params_d
  /\ (forall k v, In (k, v) (ScreenOptions params_d) -> 0 <= v)
  /\ 0 <= ElectricConvFactor params_d
  /\ 0 <= LightAllowance params_d
  /\ 0 <= HeatAllowance params_d
  /\ 0 <= HeatConvFactor params_d
  /\ (0 <= sliderLaptopPct inp <= 100)%Z
  /\ (0 <= sliderPhonePct inp <= 100)%Z
  /\ 0 <= num st sessionStaffTotalHoursPerYear
  /\ num st sessionStaffOfficeRate <= 1
  /\ (0 <= int st sessionStaffTotal)%Z.

(** The configuration [params_d] with another 'Very close' table. *)
Definition with_VeryCloseList (table : list Q) (params_d : Params) : Params :=
  {| MaxWorkDaysPerWeek := MaxWorkDaysPerWeek params_d;
     MaxWorkDaysPerYear := MaxWorkDaysPerYear params_d;
     MaxWorkDaysPerMonth := MaxWorkDaysPerMonth params_d;
     MaxHoursPerWeek := MaxHoursPerWeek params_d;
     MinHoursPerWeek := MinHoursPerWeek params_d;
     VeryCloseList := table;
     CloseList := CloseList params_d;
     FarList := FarList params_d;
     MediumList := MediumList params_d;
     PetrolRatio := PetrolRatio params_d;
     CarPetrolConvFactor := CarPetrolConvFactor params_d;
     CarDieselConvFactor := CarDieselConvFactor params_d;
     BusConvFactor := BusConvFactor params_d;
     TrainConvFactor := TrainConvFactor params_d;
     ItOptions_mobile_phone := ItOptions_mobile_phone params_d;
     ItOptions_laptop := ItOptions_laptop params_d;
     ItOptions_desktop_monitor := ItOptions_desktop_monitor params_d;
     ScreenOptions := ScreenOptions params_d;
     ElectricConvFactor := ElectricConvFactor params_d;
     LightAllowance := LightAllowance params_d;
     HeatAllowance := HeatAllowance params_d;
     HeatConvFactor := HeatConvFactor params_d |}.

(** Twenty-five percentages: three more bucket proportions than the
    fragment has distance limits for. *)
Definition long_table : list Z :=
  [4; 4; 4; 4; 4; 4; 4; 4; 4; 4; 4; 4; 4; 4; 4; 4; 4; 4; 4; 4; 4; 4; 4; 4; 4]%Z.

(** The example inputs with both ends of the distance slider at 7 km. *)
Definition point_commute_inputs : CommuteInputs :=
  {| sliderDistance := (7, 7)%Z;
     sliderOfficeVisits := 4;
     radioCloseFar := VeryClose;
     sliderTransMix := (33, 67)%Z;
     sliderBusTrain := 16;
     selectCarRegion := UnitedKingdom |}.

(** A log row whose total is the sum of its transport and WFH entries (the
    header holds no values). *)
Definition row_consistent (r : log_row) : Prop :=
  match r with
  | Header _ => True
  | Row _ _ transport wfh total => total = transport + wfh
  end.

(** The example inputs with fifty monitor options selected. *)
Definition many_monitor_inputs : WfhInputs :=
  {| sliderLaptopPct := 75;
     sliderPhonePct := 50;
     optionsMonitor := repeat "1 extra monitor"%string 50;
     sliderHeatMonths := (30, 80)%Z;
     sliderHeatHome := (30, 60)%Z;
     sliderHeatSharing := 33 |}.

(** The fresh session of a staff that is in the office every working
    day. *)
Definition office_only_session (staffTotal : Z) : SessionState :=
  set_num sessionStaffOfficeRate 1 (fresh_session staffTotal).

(** ** Start-up of the session

    The module-level code that runs on every execution of the script:
    the defaults of [params_d['SessionDefaults']] and the four computed
    entries are written only for the keys the session does not hold yet.
    Before start-up a key may be absent, so the dictionary is partial
    here.  [SessionDefaults] is the list of the configured entries for
    the keys the engine reads; [DefaultAbsencePerYear] is the
    configuration constant of that name. *)

Record RawSession : Type := {
  raw_num : numkey -> option Q;
  raw_int : intkey -> option Z;
  raw_log : option (list log_row)
}.

Definition raw_set_num (k : numkey) (v : Q) (s : RawSession) : RawSession :=
  {| raw_num := fun k' => if numkey_beq k k' then Some v else raw_num s k';
     raw_int := raw_int s;
     raw_log := raw_log s |}.

Definition raw_set_int (k : intkey) (v : Z) (s : RawSession) : RawSession :=
  {| raw_num := raw_num s;
     raw_int := fun k' => if intkey_beq k k' then Some v else raw_int s k';
     raw_log := raw_log s |}.

Definition raw_set_log (l : list log_row) (s : RawSession) : RawSession :=
  {| raw_num := raw_num s; raw_int := raw_int s; raw_log := Some l |}.

(** [if k not in st.session_state: st.session_state[k] = v]. *)
Definition set_default (s : RawSession) (entry : commit) : RawSession :=
  match entry with
  | SetNum k v =>
      match raw_num s k with Some _ => s | None => raw_set_num k v s end
  | SetInt k v =>
      match raw_int s k with Some _ => s | None => raw_set_int k v s end
  end.

(** The same for a value that is only computed when the key is absent. *)
Definition set_default_num (k : numkey) (value : RawSession -> result Q)
    (s : RawSession) : result RawSession :=
  match raw_num s k with
  | Some _ => Ok s
  | None => v <- value s ;; Ok (raw_set_num k v s)
  end.

(** [st.session_state[k]] on the partial dictionary. *)
Definition raw_get_num (s : RawSession) (k : numkey) : result Q :=
  match raw_num s k with
  | Some v => Ok v
  | None => Raise KeyError
  end.

Definition log_header : log_row :=
  Header ["TotalFte"; "TotalDistance"; "TotalEmissionsCommute";
          "TotalEmissionsWfh"; "TotalEmissions"]%string.

Definition init_session (params_d : Params) (DefaultAbsencePerYear : Q)
    (SessionDefaults : list commit) (s : RawSession) : result RawSession :=
  let s1 := fold_left set_default SessionDefaults s in
  let s2 :=
    match raw_log s1 with
    | Some _ => s1
    | None => raw_set_log [log_header] s1
    end in
  s3 <- set_default_num sessionStaffAbsenceRate
          (fun _ => py_div (MaxWorkDaysPerYear params_d - DefaultAbsencePerYear)
                           (MaxWorkDaysPerYear params_d)) s2 ;;
  s4 <- set_default_num sessionStaffOfficeRate
          (fun _ => py_div 4 (MaxWorkDaysPerMonth params_d)) s3 ;;
  set_default_num sessionStaffTotalHoursPerYear
    (fun s' =>
       rate <- raw_get_num s' sessionStaffAbsenceRate ;;
       Ok (MaxWorkDaysPerYear params_d * (1 - rate)
           * (MaxHoursPerWeek params_d / 5))) s4.

(** The key a default entry is for. *)
Definition entry_present (s : RawSession) (entry : commit) : Prop :=
  match entry with
  | SetNum k _ => raw_num s k <> None
  | SetInt k _ => raw_int s k <> None
  end.

(** The session with no key at all, as a new browser session has it. *)
Definition empty_session : RawSession :=
  {| raw_num := fun _ => None; raw_int := fun _ => None; raw_log := None |}.

(** Example defaults for the keys the start-up code does not compute. *)
Definition example_defaults : list commit :=
  [ SetNum sessionFteTotal 0; SetInt sessionStaffTotal 100;
    SetInt sessionDistanceTotal 0; SetNum sessionEmissionsTransport 0;
    SetNum sessionEmissionsLight 0; SetNum sessionEmissionsIt 0;
    SetNum sessionEmissionsHeat 0; SetNum sessionEmissionsWfh 0;
    SetNum sessionEmissionsTotal 0 ].

(** [s'] holds every entry [s] holds, with the same value. *)
Definition extends (s s' : RawSession) : Prop :=
  (forall k v, raw_num s k = Some v -> raw_num s' k = Some v)
  /\ (forall k v, raw_int s k = Some v -> raw_int s' k = Some v)
  /\ (forall l, raw_log s = Some l -> raw_log s' = Some l).

(** ** [common_functions.fn_LoadFile]

    The file system is a function from paths to the contents of the
    files that exist, and [yaml.load] is a parameter, with its own
    errors.  File names are byte strings; [str.lower] is modelled on the
    ASCII letters. *)

(** [c.lower()] on one character. *)
Definition lower_ascii (c : Ascii.ascii) : Ascii.ascii :=
  let n := Ascii.nat_of_ascii c in
  if ((65 <=? n) && (n <=? 90))%nat then Ascii.ascii_of_nat (n + 32) else c.

(** [s.lower()]. *)
Fixpoint str_lower (s : string) : string :=
  match s with
  | EmptyString => EmptyString
  | String c s' => String (lower_ascii c) (str_lower s')
  end.

(** [c in s] for a one-character [c]. *)
Fixpoint str_contains (c : Ascii.ascii) (s : string) : bool :=
  match s with
  | EmptyString => false
  | String a s' => if Ascii.eqb a c then true else str_contains c s'
  end.

(** [s.split(sep)] for a one-character separator. *)
Fixpoint str_split (sep : Ascii.ascii) (s : string) : list string :=
  match s with
  | EmptyString => [EmptyString]
  | String a s' =>
      if Ascii.eqb a sep then EmptyString :: str_split sep s'
      else
        match str_split sep s' with
        | h :: t => String a h :: t
        | [] => [String a EmptyString]
        end
  end.

Definition dot : Ascii.ascii := Ascii.ascii_of_nat 46.

(** What [fn_LoadFile] hands back: the text of a Markdown file or the
    object parsed from a YAML file. *)
Inductive loaded (Y : Type) : Type :=
| LoadedText (text : string)
| LoadedYaml (y : Y).

Arguments LoadedText {Y} text.
Arguments LoadedYaml {Y} y.

(** The outcome of a call: the returned [load_object] ([None] when nothing
    was loaded), a failed assertion with its message, or an error of the
    YAML loader. *)
Inductive load_outcome (Y E : Type) : Type :=
| Returned (load_object : option (loaded Y))
| AssertionError (message : string)
| LoaderError (e : E).

Arguments Returned {Y E} load_object.
Arguments AssertionError {Y E} message.
Arguments LoaderError {Y E} e.

Section LoadFile.
Variables Y E : Type.
Variable files : string -> option string.
Variable yaml_load : string -> E + Y.

Definition fn_name : string := "common_functions.py fn_LoadFile".

Definition acceptable_filetypes : list string := ["md"; "yml"]%string.

Definition fn_LoadFile (filename : string) : load_outcome Y E :=
  match files filename with
  | None =>
      AssertionError
        ("ERROR: " ++ fn_name ++ ": filename does not exist: " ++ filename)%string
  | Some content =>
      if negb (str_contains dot filename) then
        AssertionError
          ("ERROR: " ++ fn_name ++ ": filename does not have an extension: "
           ++ filename)%string
      else
        let file_ext := last (str_split dot (str_lower filename)) EmptyString in
        if negb (existsb (String.eqb file_ext) acceptable_filetypes) then
          AssertionError
            ("ERROR: " ++ fn_name ++ ": file extension not in permitted list: "
             ++ filename)%string
        else
          let load_object :=
            if String.eqb file_ext "md" then Some (LoadedText content)
            else None in
          if String.eqb file_ext "yml" then
            match yaml_load content with
            | inr y => Returned (Some (LoadedYaml y))
            | inl e => LoaderError e
            end
          else Returned load_object
  end.

(** [fn_GetDefaultParams(parameter_filename='config.yml')] and
    [fn_GetReadMeText(readme_filename='README.md')], without the
    caching. *)
Definition fn_GetDefaultParams (parameter_filename : option string)
    : load_outcome Y E :=
  fn_LoadFile
    (match parameter_filename with Some f => f | None => "config.yml"%string end).

Definition fn_GetReadMeText (readme_filename : option string)
    : load_outcome Y E :=
  fn_LoadFile
    (match readme_filename with Some f => f | None => "README.md"%string end).
End LoadFile.

(** An example file system, and a YAML loader that only accepts the empty
    document. *)
Definition example_files (path : string) : option string :=
  if String.eqb path "README.MD" then Some "# Read me"%string
  else if String.eqb path "config.yml" then Some ""%string
  else if String.eqb path "notes.txt" then Some "notes"%string
  else None.

Definition example_yaml_load (text : string) : string + unit :=
  if String.eqb text "" then inr tt else inl "malformed"%string.

(** * The staffing fragment in double precision

    The definitions above read the arithmetic of the source over the
    rationals.  The staffing fragment truncates and rounds what it
    computes ([np.floor], [int], [np.round]), and there the rounding error
    of the doubles decides the outcome: [100 * 0.29] is
    28.999999999999996 and its floor 28, where the rational product is 29.
    This module reads [fn_FormStaff] over IEEE 754 binary64, the
    arithmetic of Python's [float] and of [numpy.float64], with the
    primitive doubles of the kernel.  The numbers of the configuration are
    read as doubles. *)
Module Binary64.

(** The double nearest to the integer [z], ties to even; an infinity
    beyond the range of the doubles. *)
Definition of_int (z : Z) : float :=
  SF2Prim (binary_normalize prec emax z 0 false).

(** [float(z)], the conversion of an [int] operand in mixed arithmetic:
    it raises beyond the range of the doubles. *)
Definition py_float (z : Z) : result float :=
  let x := of_int z in
  if is_infinity x then Raise OverflowError else Ok x.

(** The double a decimal constant denotes, in the program text and in
    [config.yml]: for a numerator and a denominator below 2^53 the
    correctly rounded quotient is the double nearest to the constant. *)
Definition float_of_Q (q : Q) : float :=
  (of_int (Qnum q) / of_int (Zpos (Qden q)))%float.

(** The exact value of the finite double of sign [s], mantissa [m] and
    exponent [e]. *)
Definition exact (s : bool) (m : positive) (e : Z) : Q :=
  let n := if s then Zneg m else Zpos m in
  if (0 <=? e)%Z then inject_Z (n * 2 ^ e)
  else Qmake n (Z.to_pos (2 ^ (- e))).

(** [int(x)]: truncation toward zero; raises on an infinity and on a
    NaN. *)
Definition py_int (x : float) : result Z :=
  match Prim2SF x with
  | S754_zero _ => Ok 0%Z
  | S754_finite s m e =>
      let q := exact s m e in Ok (Z.quot (Qnum q) (Zpos (Qden q)))
  | S754_infinity _ => Raise OverflowError
  | S754_nan => Raise ValueError
  end.

(** [np.floor(x)]. *)
Definition np_floor (x : float) : float :=
  match Prim2SF x with
  | S754_finite s m e => of_int (Qfloor (exact s m e))
  | _ => x
  end.

(** [np.rint(x)]: the nearest integer, ties to the even one; a zero
    result keeps the sign of [x]. *)
Definition np_rint (x : float) : float :=
  match Prim2SF x with
  | S754_finite s m e =>
      let r := round_half_even (exact s m e) in
      if (r =? 0)%Z then (if s then neg_zero else zero) else of_int r
  | _ => x
  end.

(** [np.round(x, decimals)]: scale by a power of ten, round to the
    nearest integer, scale back; each step is rounded to a double. *)
Definition np_round (x : float) (decimals : nat) : float :=
  let f := of_int (10 ^ Z.of_nat decimals) in
  (np_rint (x * f) / f)%float.

(** [a / b] on Python floats: raises on a zero divisor. *)
Definition py_div (a b : float) : result float :=
  if (b =? 0)%float then Raise ZeroDivisionError else Ok (a / b)%float.

(** [int(n * x)] for an [int] [n] and a float [x]. *)
Definition py_int_mul (n : Z) (x : float) : result Z :=
  fn <- py_float n ;;
  py_int (fn * x)%float.

(** The members of the staffing population: the full-time hours are
    Python [int]s, the part-time hours are the [numpy.float64] samples of
    [np.linspace]. *)
Inductive num : Type :=
| Int (z : Z)
| Np (x : float).

(** [a + b]. *)
Definition py_add (a b : num) : result num :=
  match a, b with
  | Int x, Int y => Ok (Int (x + y))
  | Int x, Np y => fx <- py_float x ;; Ok (Np (fx + y)%float)
  | Np x, Int y => fy <- py_float y ;; Ok (Np (x + fy)%float)
  | Np x, Np y => Ok (Np (x + y)%float)
  end.

(** [sum(l)]: the additions are made from the left, starting from the
    [int] 0. *)
Definition py_sum (l : list num) : result num :=
  fold_left (fun acc b => a <- acc ;; py_add a b) l (Ok (Int 0)).

(** [s / d] for a sum [s] and a float [d]: an [int] sum raises on a zero
    divisor, a [numpy.float64] sum gives an infinity or a NaN. *)
Definition py_truediv (s : num) (d : float) : result float :=
  match s with
  | Int z => fz <- py_float z ;; py_div fz d
  | Np x => Ok (x / d)%float
  end.

(** [np.linspace(start, stop, num, endpoint)]: [arange(num) * step +
    start] with [step = (stop - start) / div]; when the step underflows to
    zero the samples are [arange(num) / div * (stop - start) + start]; the
    last sample is overwritten by [stop] when the endpoint is included. *)
Definition linspace (start stop : float) (num : nat) (endpoint : bool)
    : list float :=
  let div := if endpoint then (num - 1)%nat else num in
  let delta := (stop - start)%float in
  let y := map (fun i => of_int (Z.of_nat i)) (seq 0 num) in
  let y :=
    if (0 <? div)%nat then
      let step := (delta / of_int (Z.of_nat div))%float in
      if (step =? 0)%float
      then map (fun v => (v / of_int (Z.of_nat div) * delta)%float) y
      else map (fun v => (v * step)%float) y
    else map (fun v => (v * delta)%float) y in
  let y := map (fun v => (v + start)%float) y in
  if endpoint && (1 <? num)%nat then removelast y ++ [stop] else y.

(** The bucket-fill loop of the staffing fragment:
<<
    for ix, ix2 in enumerate([0.1, 0.2, 0.4, 0.2]):
        part_time_group += [part_time_group_lims[ix]
                            for y in range(int(part_time_num * ix2))]
>>
    [part_time_group_lims[ix]] is only evaluated when the range is not
    empty. *)
Fixpoint fill_buckets (lims : list float) (scale : Z) (ix : nat)
    (table : list float) (group : list num) : result (list num) :=
  match table with
  | [] => Ok group
  | ix2 :: rest =>
      n <- py_int_mul scale ix2 ;;
      if (n <=? 0)%Z then fill_buckets lims scale (S ix) rest group
      else
        v <- py_index lims ix ;;
        fill_buckets lims scale (S ix) rest (group ++ copies (Np v) n)
  end.

Record StaffValues : Type := {
  singleFtePerYear : float;
  total_staff_group : list num;
  newFteTotal : float;
  newStaffTotal : Z;
  newAbsenceRate : float;
  newTtlHrsPerYr : float
}.

Section FormStaff.
Variable params_d : Params.
Variable inp : StaffInputs.

Definition part_time_pct : result float :=
  s <- py_float (part_time_slider inp) ;;
  py_div s (of_int 100).

Definition part_time_num (pct : float) : result Z :=
  total <- py_float (total_staff_num inp) ;;
  py_int (np_floor (total * pct)%float).

Definition part_time_group_lims (fte : float) : list float :=
  linspace (float_of_Q (MinHoursPerWeek params_d)) fte 5 false.

Definition part_time_group (lims : list float) (n : Z) : result (list num) :=
  g <- fill_buckets lims n 0
         (map float_of_Q [1 # 10; 2 # 10; 4 # 10; 2 # 10]) [] ;;
  v <- py_index lims 4 ;;
  Ok (g ++ copies (Np v) (n - len g)).

(** The values [fn_FormStaff] computes, in the order of the source;
    [fte] is [fteHoursPerWeek] as the double its first use converts it
    to.  ([part_time_median], which nothing reads, is left out.) *)
Definition staff_values : result StaffValues :=
  pct <- part_time_pct ;;
  fte <- py_float (fteHoursPerWeek inp) ;;
  perDay <- py_div fte (float_of_Q (MaxWorkDaysPerWeek params_d)) ;;
  holidays <- py_float (daysHolidayPerYear inp) ;;
  let single :=
    (perDay * (float_of_Q (MaxWorkDaysPerYear params_d) - holidays
               - float_of_Q (absenceDaysPerYear inp)))%float in
  n <- part_time_num pct ;;
  let full_time_num := (total_staff_num inp - n)%Z in
  ptg <- part_time_group (part_time_group_lims fte) n ;;
  let group := copies (Int (fteHoursPerWeek inp)) full_time_num ++ ptg in
  s <- py_sum group ;;
  q <- py_truediv s (float_of_Q (MaxHoursPerWeek params_d)) ;;
  let newFte := np_round q 2 in
  perDay' <- py_div fte (float_of_Q (MaxWorkDaysPerWeek params_d)) ;;
  rate <- py_div single
            (perDay' * float_of_Q (MaxWorkDaysPerYear params_d))%float ;;
  Ok {| singleFtePerYear := single;
        total_staff_group := group;
        newFteTotal := newFte;
        newStaffTotal := total_staff_num inp;
        newAbsenceRate := rate;
        newTtlHrsPerYr := (single * newFte)%float |}.
End FormStaff.

(** ** Section 4.1 of the specification, evaluated in double precision *)

(** [(full_time_weekly_hours / max_work_days_per_week) *
    (max_work_days_per_year - holiday_days - absence_days)]. *)
Definition spec_single_fte_hours_per_year
    (full_time_weekly_hours max_work_days_per_week max_work_days_per_year
     holiday_days absence_days : float) : result float :=
  hours_per_day <- py_div full_time_weekly_hours max_work_days_per_week ;;
  Ok (hours_per_day
      * (max_work_days_per_year - holiday_days - absence_days))%float.

(** Part-time count = [floor(headcount * part_time_fraction)]. *)
Definition spec_part_time_count (headcount part_time_fraction : float)
    : result Z :=
  py_int (np_floor (headcount * part_time_fraction)%float).

(** The five evenly spaced hour buckets between the minimum weekly hours
    and the full-time weekly hours, exclusive of the top. *)
Definition spec_bucket (min_hours full_time_weekly_hours : float) (k : nat)
    : float :=
  nth k (linspace min_hours full_time_weekly_hours 5 false) nan.

(** The synthesized population: the full-time members at the full-time
    weekly hours; of the part-time members the proportions 10%, 20%, 40%
    and 20%, cut to whole numbers, in the first four buckets, and every
    remaining one in the fifth. *)
Definition spec_population (full_time_weekly_hours : Z)
    (min_hours full_hours : float) (full_time_count part_time_count : Z)
    : result (list num) :=
  c0 <- py_int_mul part_time_count (float_of_Q (1 # 10)) ;;
  c1 <- py_int_mul part_time_count (float_of_Q (2 # 10)) ;;
  c2 <- py_int_mul part_time_count (float_of_Q (4 # 10)) ;;
  c3 <- py_int_mul part_time_count (float_of_Q (2 # 10)) ;;
  let placed := (Z.max 0 c0 + Z.max 0 c1 + Z.max 0 c2 + Z.max 0 c3)%Z in
  Ok (copies (Int full_time_weekly_hours) full_time_count
      ++ copies (Np (spec_bucket min_hours full_hours 0)) c0
      ++ copies (Np (spec_bucket min_hours full_hours 1)) c1
      ++ copies (Np (spec_bucket min_hours full_hours 2)) c2
      ++ copies (Np (spec_bucket min_hours full_hours 3)) c3
      ++ copies (Np (spec_bucket min_hours full_hours 4))
           (part_time_count - placed)).

(** Total FTE = (sum of the weekly hours of the population) / the
    max-hours-per-week constant, rounded to 2 decimal places. *)
Definition spec_total_fte (population : list num)
    (max_hours_per_week : float) : result float :=
  weights <- py_sum population ;;
  fte <- py_truediv weights max_hours_per_week ;;
  Ok (np_round fte 2).

(** Absence rate = [single_fte_hours_per_year / ((full_time_weekly_hours /
    max_work_days_per_week) * max_work_days_per_year)]. *)
Definition spec_absence_rate
    (single_fte_hours_per_year full_time_weekly_hours
     max_work_days_per_week max_work_days_per_year : float) : result float :=
  hours_per_day <- py_div full_time_weekly_hours max_work_days_per_week ;;
  py_div single_fte_hours_per_year
    (hours_per_day * max_work_days_per_year)%float.

(** Total staff-hours/year = [single_fte_hours_per_year * total FTE]. *)
Definition spec_total_staff_hours_per_year
    (single_fte_hours_per_year total_fte : float) : float :=
  (single_fte_hours_per_year * total_fte)%float.

(** The outputs of the Staffing Model as the specification derives them
    from the inputs. *)
Record SpecStaffing : Type := {
  single_fte_hours_per_year : float;
  part_time_count : Z;
  population : list num;
  total_fte : float;
  absence_rate : float;
  total_staff_hours_per_year : float
}.

Definition spec_staffing (params_d : Params) (inp : StaffInputs)
    : result SpecStaffing :=
  headcount <- py_float (total_staff_num inp) ;;
  percentage <- py_float (part_time_slider inp) ;;
  part_time_fraction <- py_div percentage (of_int 100) ;;
  full_time_weekly_hours <- py_float (fteHoursPerWeek inp) ;;
  holiday_days <- py_float (daysHolidayPerYear inp) ;;
  let max_work_days_per_week := float_of_Q (MaxWorkDaysPerWeek params_d) in
  let max_work_days_per_year := float_of_Q (MaxWorkDaysPerYear params_d) in
  single <- spec_single_fte_hours_per_year full_time_weekly_hours
              max_work_days_per_week max_work_days_per_year holiday_days
              (float_of_Q (absenceDaysPerYear inp)) ;;
  part_time <- spec_part_time_count headcount part_time_fraction ;;
  pop <- spec_population (fteHoursPerWeek inp)
           (float_of_Q (MinHoursPerWeek params_d)) full_time_weekly_hours
           (total_staff_num inp - part_time) part_time ;;
  fte <- spec_total_fte pop (float_of_Q (MaxHoursPerWeek params_d)) ;;
  rate <- spec_absence_rate single full_time_weekly_hours
            max_work_days_per_week max_work_days_per_year ;;
  Ok {| single_fte_hours_per_year := single;
        part_time_count := part_time;
        population := pop;
        total_fte := fte;
        absence_rate := rate;
        total_staff_hours_per_year :=
          spec_total_staff_hours_per_year single fte |}.

(** The scenario of the specification with 29 % in place of 25 % of
    part-time workers. *)
Definition staff_inputs_29 : StaffInputs :=
  {| total_staff_num := 100;
     part_time_slider := 29;
     fteHoursPerWeek := 35;
     daysHolidayPerYear := 25;
     absenceDaysPerYear := 0 |}.
End Binary64.

(** * Properties *)

(** ** The result monad and the Python helpers *)

Lemma bind_Ok {A B : Type} (c : result A) (k : A -> result B) (b : B) :
  bind c k = Ok b -> exists a, c = Ok a /\ k a = Ok b.
Proof.
  destruct c as [a | e]; simpl; intros H.
  - exists a. split; [reflexivity | exact H].
  - discriminate H.
Qed.

Lemma py_div_Ok (a b : Q) : ~ b == 0 -> py_div a b = Ok (a / b).
Proof.
  intros Hb. unfold py_div.
  destruct (Qeq_bool b 0) eqn:E; [| reflexivity].
  apply Qeq_bool_iff in E. contradiction.
Qed.

Lemma py_div_zero (a b : Q) : b == 0 -> py_div a b = Raise ZeroDivisionError.
Proof.
  intros Hb. unfold py_div.
  apply Qeq_bool_iff in Hb. rewrite Hb. reflexivity.
Qed.

Lemma copies_length {A : Type} (x : A) (n : Z) :
  length (copies x n) = Z.to_nat n.
Proof. unfold copies. apply repeat_length. Qed.

Lemma copies_In {A : Type} (x y : A) (n : Z) : In y (copies x n) -> y = x.
Proof. unfold copies. intros H. apply repeat_spec in H. exact H. Qed.

(** ** The bucket-fill loop *)

Lemma fill_buckets_length (lims : list Q) (scale : Z) (table : list Q) :
  forall (ix : nat) (group g : list Q),
    fill_buckets lims scale ix table group = Ok g ->
    length g = (length group + bucket_total scale table)%nat.
Proof.
  induction table as [| ix2 rest IH]; intros ix group g H; simpl in H.
  - injection H as <-. unfold bucket_total. simpl. lia.
  - unfold bucket_total in *. simpl. unfold bucket_count at 1.
    destruct (py_int (inject_Z scale * ix2) <=? 0)%Z eqn:E.
    + apply IH in H. apply Z.leb_le in E.
      rewrite H. replace (Z.to_nat _) with 0%nat by lia. lia.
    + apply bind_Ok in H. destruct H as (v & _ & H).
      apply IH in H. rewrite H, length_app, copies_length. lia.
Qed.

Lemma fill_buckets_total (lims : list Q) (scale : Z) (table : list Q) :
  forall (ix : nat) (group : list Q),
    (ix + length table <= length lims)%nat ->
    exists g, fill_buckets lims scale ix table group = Ok g.
Proof.
  induction table as [| ix2 rest IH]; intros ix group Hlen; simpl in *.
  - eexists. reflexivity.
  - destruct (py_int (inject_Z scale * ix2) <=? 0)%Z.
    + apply IH. lia.
    + unfold py_index.
      destruct (nth_error lims ix) as [v |] eqn:E.
      * simpl. apply IH. lia.
      * apply nth_error_None in E. lia.
Qed.

Lemma fill_buckets_In (lims : list Q) (scale : Z) (table : list Q) :
  forall (ix : nat) (group g : list Q),
    fill_buckets lims scale ix table group = Ok g ->
    forall x, In x g -> In x group \/ In x lims.
Proof.
  induction table as [| ix2 rest IH]; intros ix group g H x Hx; simpl in H.
  - injection H as <-. left. exact Hx.
  - destruct (py_int (inject_Z scale * ix2) <=? 0)%Z.
    + eapply IH; eassumption.
    + apply bind_Ok in H. destruct H as (v & Hv & H).
      destruct (IH _ _ _ H x Hx) as [Hin | Hin]; [| right; exact Hin].
      apply in_app_or in Hin. destruct Hin as [Hin | Hin]; [left; exact Hin |].
      apply copies_In in Hin. subst x. right.
      unfold py_index in Hv. destruct (nth_error lims ix) eqn:E; [| discriminate].
      injection Hv as ->. eapply nth_error_In. exact E.
Qed.

(** ** FORM - STAFF: the synthesized population *)

Lemma part_time_num_bounds (inp : StaffInputs) :
  (0 <= total_staff_num inp)%Z ->
  (0 <= part_time_slider inp < 100)%Z ->
  (0 <= part_time_num inp <= total_staff_num inp)%Z.
Proof.
  intros Ht Hs. unfold part_time_num, part_time_pct, np_floor.
  destruct inp as [t s h d a]; simpl in *.
  unfold Qfloor, Qmult, Qdiv, Qinv, inject_Z; simpl.
  rewrite !Z.mul_1_r.
  split.
  - apply Z.div_pos; nia.
  - apply Z.div_le_upper_bound; nia.
Qed.

Lemma staff_bucket_total (n : Z) :
  (0 <= n)%Z ->
  (Z.of_nat (bucket_total n [1 # 10; 2 # 10; 4 # 10; 2 # 10]) <= n)%Z.
Proof.
  intros Hn. unfold bucket_total, bucket_count, py_int, Qmult, inject_Z; simpl.
  rewrite !Z.quot_div_nonneg by lia.
  rewrite !Nat2Z.inj_add, !Z2Nat.id by (try apply Z.div_pos; lia).
  pose proof (Z.mul_div_le (n * 1) 10).
  pose proof (Z.mul_div_le (n * 2) 10).
  pose proof (Z.mul_div_le (n * 4) 10).
  lia.
Qed.


Lemma synth_staff_group_total (params_d : Params) (inp : StaffInputs) :
  exists group, synth_staff_group params_d inp = Ok group.
Proof.
  destruct (fill_buckets_total (part_time_group_lims params_d inp)
              (part_time_num inp) [1 # 10; 2 # 10; 4 # 10; 2 # 10] 0 [])
    as [four Hfour]; [simpl; lia |].
  unfold synth_staff_group, part_time_group. rewrite Hfour. simpl.
  eexists. reflexivity.
Qed.

(** ** Rounding *)

Lemma round_half_even_close (x : Q) :
  Qabs (inject_Z (round_half_even x) - x) <= 1 # 2.
Proof.
  unfold round_half_even.
  pose proof (Qfloor_le x) as Hlo.
  pose proof (Qlt_floor x) as Hhi.
  rewrite inject_Z_plus in Hhi.
  change (inject_Z 1) with 1 in Hhi.
  apply Qabs_Qle_condition.
  destruct (Qcompare (x - inject_Z (Qfloor x)) (1 # 2)) eqn:E.
  - apply Qeq_alt in E.
    destruct (Z.even (Qfloor x)).
    + split; lra.
    + rewrite inject_Z_plus. change (inject_Z 1) with 1. split; lra.
  - apply Qlt_alt in E. split; lra.
  - apply Qgt_alt in E. rewrite inject_Z_plus. change (inject_Z 1) with 1.
    split; lra.
Qed.

Lemma Qdiv_nonzero (a b : Q) : ~ a == 0 -> ~ b == 0 -> ~ a / b == 0.
Proof.
  intros Ha Hb H.
  apply Ha.
  setoid_replace a with (a / b * b) by (field; exact Hb).
  rewrite H. ring.
Qed.

(** ** FORM - STAFF in double precision *)








(** The values of the source on the scenario of the specification
    (headcount 100, 25 % part-time, 35 hours a week, 25 days of holiday, no
    other absence, under the example configuration): 25 part-time members
    in a population of 100, weekly hours summing to 3105.800000000001, a
    total FTE of 77.65, and 1596 * 77.65 = 123929.40000000001 hours per
    year. *)
Example staff_scenario_doubles :
  exists s,
    Binary64.spec_staffing example_params example_staff_inputs = Ok s
    /\ Binary64.part_time_count s = 25%Z
    /\ len (Binary64.population s) = 100%Z
    /\ Binary64.py_sum (Binary64.population s)
       = Ok (Binary64.Np 0x1.843999999999cp+11%float)
    /\ Binary64.single_fte_hours_per_year s = Binary64.of_int 1596
    /\ Binary64.total_fte s = Binary64.float_of_Q (7765 # 100)
    /\ Binary64.total_staff_hours_per_year s = 0x1.e419666666667p+16%float.
Proof.
  eexists. split; [vm_compute; reflexivity |].
  vm_compute. repeat split; reflexivity.
Qed.

(** With 29 % of part-time workers the product [100 * 0.29] is
    28.999999999999996: the source counts 28 part-time members, not 29,
    and the total FTE is 76.97. *)
Example staff_29_percent_doubles :
  exists s,
    Binary64.spec_staffing example_params Binary64.staff_inputs_29 = Ok s
    /\ Binary64.part_time_count s = 28%Z
    /\ len (Binary64.population s) = 100%Z
    /\ Binary64.total_fte s = Binary64.float_of_Q (7697 # 100)
    /\ Binary64.total_staff_hours_per_year s
       = Binary64.float_of_Q (12284412 # 100).
Proof.
  eexists. split; [vm_compute; reflexivity |].
  vm_compute. repeat split; reflexivity.
Qed.

(** ** FORM - COMMUTE OPTIONS: the transport mix *)

(** C7: the walk, car, bus and train percentages derived from the two
    mix sliders sum to exactly 100, whatever the slider positions. *)
Theorem mode_percentages_sum (inp : CommuteInputs) :
  (walk_pct inp + car_pct inp + bus_pct inp + train_pct inp = 100)%Z.
Proof.
  unfold walk_pct, car_pct, train_pct, bus_pct. lia.
Qed.

(** C10: within the bounds the sliders enforce (mix ends in 1..100, bus
    share between 1 and 100 - max of the mix), each of the four derived
    percentages is non-negative, the train share obtained by subtraction
    included. *)
Theorem mode_percentages_nonneg (inp : CommuteInputs) :
  (1 <= tmin (sliderTransMix inp))%Z ->
  (tmax (sliderTransMix inp) <= 100)%Z ->
  (1 <= sliderBusTrain inp <= 100 - tmax (sliderTransMix inp))%Z ->
  (0 <= walk_pct inp)%Z /\ (0 <= car_pct inp)%Z
  /\ (0 <= bus_pct inp)%Z /\ (0 <= train_pct inp)%Z.
Proof.
  unfold walk_pct, car_pct, train_pct, bus_pct, tmin, tmax.
  intros Hlo Hhi Hbus. lia.
Qed.

Lemma mode_percentages_nonneg_witness :
  (0 <= walk_pct example_commute_inputs)%Z
  /\ (0 <= car_pct example_commute_inputs)%Z
  /\ (0 <= bus_pct example_commute_inputs)%Z
  /\ (0 <= train_pct example_commute_inputs)%Z.
Proof.
  apply (mode_percentages_nonneg example_commute_inputs);
    unfold tmin, tmax; simpl; lia.
Defined.

(** ** FORM - COMMUTE OPTIONS: the cap on the round trip *)

(** C8: whatever the per-person distances, the distance range and the
    number of office visits, no capped round-trip distance exceeds
    [max(sliderDistance) * 4]. *)
Theorem capped_commute_bound (inp : CommuteInputs) (group : list Q) :
  Forall (fun d => d <= inject_Z (tmax (sliderDistance inp) * 4))
         (commuteCapped inp (commuteRaw inp group)).
Proof.
  unfold commuteCapped. apply Forall_map. apply Forall_forall.
  intros d _. unfold maxCommuteDistance, Qlt_bool.
  destruct (Qle_bool (inject_Z (tmax (sliderDistance inp) * 4)) d) eqn:E; simpl.
  - apply Qle_refl.
  - destruct (Qlt_le_dec d (inject_Z (tmax (sliderDistance inp) * 4))) as [H | H].
    + apply Qlt_le_weak. exact H.
    + apply Qle_bool_iff in H. rewrite H in E. discriminate E.
Qed.

Lemma commute_values_capped (params_d : Params) (inp : CommuteInputs)
    (st : SessionState) (v : CommuteValues) :
  commute_values params_d inp st = Ok v ->
  distanceCommute v = commuteCapped inp (commuteRaw inp (distance_group v)).
Proof.
  unfold commute_values. intros H.
  apply bind_Ok in H. destruct H as (group & _ & H).
  apply bind_Ok in H. destruct H as (rate & _ & H).
  apply bind_Ok in H. destruct H as (pos & _ & H).
  injection H as <-. reflexivity.
Qed.

(** ** FORM - COMMUTE OPTIONS: the synthesized population *)

Lemma tmin_le_tmax (t : Z * Z) : (tmin t <= tmax t)%Z.
Proof. unfold tmin, tmax. lia. Qed.

Lemma linspace_20_in_range (lo hi x : Q) :
  lo <= hi -> In x (linspace lo hi 20 true) -> in_range lo hi x.
Proof.
  intros Hle Hin. unfold linspace in Hin. simpl in Hin.
  unfold inject_Z in Hin. unfold in_range.
  assert (Hstep : (hi - lo) / 19 * 19 == hi - lo) by field.
  set (step := (hi - lo) / 19) in *.
  repeat (destruct Hin as [<- | Hin]; [split; lra |]).
  contradiction.
Qed.

Lemma distance_group_lims_last (inp : CommuteInputs) :
  py_last (distance_group_lims inp) = Ok (inject_Z (tmax (sliderDistance inp))).
Proof. reflexivity. Qed.

Lemma distance_group_lims_length (inp : CommuteInputs) :
  length (distance_group_lims inp) = 20%nat.
Proof. reflexivity. Qed.

(** The population is synthesized whenever the closeness table has at most
    22 proportions (its first N-2 entries then index the 20 limits). *)
Lemma synth_distance_group_total (params_d : Params) (inp : CommuteInputs)
    (staffTotal : Z) :
  (length (closeness_table params_d (radioCloseFar inp)) <= 22)%nat ->
  exists group, synth_distance_group params_d inp staffTotal = Ok group.
Proof.
  intros Hlen.
  destruct (fill_buckets_total (distance_group_lims inp)
              (tmax (sliderDistance inp))
              (drop_last2 (closeness_table params_d (radioCloseFar inp))) 0 [])
    as [g Hg].
  { rewrite distance_group_lims_length. unfold drop_last2.
    rewrite length_firstn. lia. }
  unfold synth_distance_group. rewrite Hg.
  eexists. reflexivity.
Qed.

(** Every synthesized distance lies within the distance range. *)
Lemma synth_distance_group_in_range (params_d : Params) (inp : CommuteInputs)
    (staffTotal : Z) (group : list Q) :
  synth_distance_group params_d inp staffTotal = Ok group ->
  Forall (in_range (inject_Z (tmin (sliderDistance inp)))
                   (inject_Z (tmax (sliderDistance inp)))) group.
Proof.
  intros H. unfold synth_distance_group in H.
  apply bind_Ok in H. destruct H as (g & Hg & H).
  rewrite distance_group_lims_last in H. simpl in H. injection H as <-.
  assert (Hle : inject_Z (tmin (sliderDistance inp))
                <= inject_Z (tmax (sliderDistance inp))).
  { rewrite <- Zle_Qle. apply tmin_le_tmax. }
  apply Forall_forall. intros x Hx.
  apply in_app_or in Hx. destruct Hx as [Hx | Hx].
  - destruct (fill_buckets_In _ _ _ _ _ _ Hg x Hx) as [[] | Hin].
    apply linspace_20_in_range; assumption.
  - apply copies_In in Hx. subst x. split; [exact Hle | apply Qle_refl].
Qed.


(** C1: on the example configuration, with the distance slider at 1..1000
    and a committed headcount of 100, [fn_FormCommute] synthesizes a
    population of 1000 distances: the bucket counts are taken from
    [max(sliderDistance)], and the final fill to the headcount adds nothing
    once they exceed it.  All values are within the range. *)
Theorem distance_population_exceeds_headcount :
  exists v,
    commute_values example_params long_range_commute_inputs (fresh_session 100)
      = Ok v
    /\ int (fresh_session 100) sessionStaffTotal = 100%Z
    /\ len (distance_group v) = 1000%Z
    /\ Forall (in_range 1 1000) (distance_group v).
Proof.
  eexists. split; [vm_compute; reflexivity |].
  split; [reflexivity |].
  split; [vm_compute; reflexivity |].
  apply (synth_distance_group_in_range example_params long_range_commute_inputs 100).
  vm_compute. reflexivity.
Qed.

(** ** FORM - COMMUTE OPTIONS: the emissions *)

(** The emissions of a run are computed from the distance total read from
    the session, whatever distance total the run itself produces. *)
Lemma commute_values_emissions (params_d : Params) (inp : CommuteInputs)
    (st : SessionState) (v : CommuteValues) :
  commute_values params_d inp st = Ok v ->
  newEmissionsTransport v =
    transport_emissions params_d inp (int st sessionDistanceTotal).
Proof.
  unfold commute_values. intros H.
  apply bind_Ok in H. destruct H as (group & _ & H).
  apply bind_Ok in H. destruct H as (rate & _ & H).
  apply bind_Ok in H. destruct H as (pos & _ & H).
  injection H as <-. reflexivity.
Qed.

(** The emissions block multiplies the distance by the integer percentages:
    it is 100 times the sum of distance * fraction * factor. *)
Lemma transport_emissions_percent (params_d : Params) (inp : CommuteInputs)
    (distanceTotal : Z) :
  transport_emissions params_d inp distanceTotal
  == 100 * spec_transport_emissions params_d inp distanceTotal.
Proof.
  unfold transport_emissions, spec_transport_emissions, py_sum. simpl.
  rewrite !inject_Z_mult. field.
Qed.

(** C2: on the example configuration and a fresh session (committed
    distance total 0), a run of [fn_FormCommute] produces a distance total
    of 13154 km and transport emissions of 0: the emissions block reads
    the committed [sessionDistanceTotal], not the total the run has just
    computed.  At the run's own total the formula of the specification
    gives 51557103/50 with the mode shares read as fractions, and the
    emissions block itself (shares as integer percentages) gives
    103114206. *)
Theorem transport_emissions_ignore_run_distance :
  exists v,
    commute_values example_params example_commute_inputs (fresh_session 100)
      = Ok v
    /\ newDistanceTotal v = 13154%Z
    /\ newEmissionsTransport v == 0
    /\ spec_transport_emissions example_params example_commute_inputs
         (newDistanceTotal v) == 51557103 # 50
    /\ transport_emissions example_params example_commute_inputs
         (newDistanceTotal v) == 103114206.
Proof.
  eexists. split; [vm_compute; reflexivity |].
  split; [vm_compute; reflexivity |].
  repeat split; vm_compute; reflexivity.
Qed.

(** ** FORM - WFH OPTIONS: the empty population *)

(** With a headcount of 0 the fragment never returns: whatever the inputs
    and the generator, the normalisation of the heating group by the
    headcount is reached with a zero divisor, if nothing raised before. *)
Lemma wfh_values_zero_headcount (params_d : Params) (inp : WfhInputs)
    (st : SessionState) (g : Rng) :
  int st sessionStaffTotal = 0%Z ->
  exists e, wfh_values params_d inp st g = Raise e.
Proof.
  intros H0. unfold wfh_values, bindM.
  destruct (monitor_loop params_d inp st (optionsMonitor inp) 0 g)
    as [[m g1] | e]; [| eauto].
  destruct (rng_choice _ None _ g1) as [[a g2] | e]; [| eauto].
  destruct (rng_choice _ (Some _) _ g2) as [[b g3] | e]; [| eauto].
  destruct (rng_choice _ (Some _) _ g3) as [[c g4] | e]; [| eauto].
  rewrite H0. unfold lift.
  rewrite py_div_zero by reflexivity. eauto.
Qed.

(** C3: the staffing fragment accepts a headcount of 0 and commits
    zeros; on the session it leaves, [fn_FormWfh] raises
    [ZeroDivisionError] for every generator, instead of producing zero
    emissions. *)
Theorem wfh_zero_headcount_raises :
  exists st,
    fn_FormStaff example_params empty_staff_inputs true (fresh_session 100)
      = Ok st
    /\ int st sessionStaffTotal = 0%Z
    /\ num st sessionFteTotal == 0
    /\ num st sessionStaffTotalHoursPerYear == 0
    /\ forall (button : bool) (g : Rng),
         fn_FormWfh example_params example_wfh_inputs st button g
           = Raise ZeroDivisionError.
Proof.
  eexists. split; [vm_compute; reflexivity |].
  split; [reflexivity |].
  split; [vm_compute; reflexivity |].
  split; [vm_compute; reflexivity |].
  intros button [t p]. vm_compute. reflexivity.
Qed.

(** ** [fn_Refresher] and the confirmed runs *)

Lemma bindM_Ok {A B : Type} (c : M A) (k : A -> M B) (g g' : Rng) (b : B) :
  bindM c k g = Ok (b, g') ->
  exists a g1, c g = Ok (a, g1) /\ k a g1 = Ok (b, g').
Proof.
  unfold bindM. destruct (c g) as [[a g1] | e]; intros H.
  - exists a, g1. split; [reflexivity | exact H].
  - discriminate H.
Qed.

Lemma assign_log (st : SessionState) (c : commit) :
  sessionLog (assign st c) = sessionLog st.
Proof. destruct c; reflexivity. Qed.

Lemma fold_assign_log (l : list commit) :
  forall st, sessionLog (fold_left assign l st) = sessionLog st.
Proof.
  induction l as [| c l IH]; intros st; simpl.
  - reflexivity.
  - rewrite IH. apply assign_log.
Qed.

Lemma fn_Refresher_log (commit_obj : option (list commit)) (st : SessionState) :
  sessionLog (fn_Refresher commit_obj st)
  = sessionLog st ++ [aggregate_row (fn_Refresher commit_obj st)].
Proof.
  unfold fn_Refresher, aggregate_row. simpl.
  destruct commit_obj as [l |]; [rewrite fold_assign_log |]; reflexivity.
Qed.

Lemma fn_Refresher_total (commit_obj : option (list commit)) (st : SessionState) :
  num (fn_Refresher commit_obj st) sessionEmissionsTotal
  = num (fn_Refresher commit_obj st) sessionEmissionsTransport
    + num (fn_Refresher commit_obj st) sessionEmissionsWfh.
Proof. reflexivity. Qed.

(** A confirmed run is a call of [fn_Refresher] on the fragment's commit
    list. *)
Lemma confirms_inv (f : Fragment) (st st' : SessionState) :
  confirms f st st' ->
  match f with
  | Staff => exists v, st' = fn_Refresher (Some (staff_commit_l v)) st
  | Commute => exists v, st' = fn_Refresher (Some (commute_commit_l v)) st
  | Wfh => exists v, st' = fn_Refresher (Some (wfh_commit_l v)) st
  end.
Proof.
  intros H. destruct H as [p inp st st' H | p inp st st' H | p inp st g st' g' H].
  - unfold fn_FormStaff in H. apply bind_Ok in H. destruct H as (v & _ & H).
    injection H as <-. exists v. reflexivity.
  - unfold fn_FormCommute in H. apply bind_Ok in H. destruct H as (v & _ & H).
    injection H as <-. exists v. reflexivity.
  - unfold fn_FormWfh in H. apply bindM_Ok in H. destruct H as (v & g1 & _ & H).
    unfold ret in H. injection H as <- _. exists v. reflexivity.
Qed.

Lemma confirms_log (f : Fragment) (st st' : SessionState) :
  confirms f st st' ->
  sessionLog st' = sessionLog st ++ [aggregate_row st'].
Proof.
  intros H. apply confirms_inv in H.
  destruct f; destruct H as [v ->]; apply fn_Refresher_log.
Qed.

(** C4: a confirmed run of any fragment appends exactly one row to the
    log and leaves the rows before it as they were; the five values of the
    row are the FTE total, distance total, transport emissions, WFH
    emissions and total emissions of the session as committed, and the
    total is the transport emissions plus the WFH emissions. *)
Theorem confirm_appends_aggregate_row (f : Fragment) (st st' : SessionState) :
  confirms f st st' ->
  sessionLog st' = sessionLog st ++ [aggregate_row st']
  /\ num st' sessionEmissionsTotal
     = num st' sessionEmissionsTransport + num st' sessionEmissionsWfh.
Proof.
  intros H. split; [exact (confirms_log f st st' H) |].
  apply confirms_inv in H.
  destruct f; destruct H as [v ->]; apply fn_Refresher_total.
Qed.

Lemma confirm_appends_aggregate_row_witness :
  exists st',
    confirms Staff (fresh_session 100) st'
    /\ sessionLog st' = sessionLog (fresh_session 100) ++ [aggregate_row st']
    /\ num st' sessionEmissionsTotal
       = num st' sessionEmissionsTransport + num st' sessionEmissionsWfh.
Proof.
  assert (H : exists st',
             fn_FormStaff example_params example_staff_inputs true
               (fresh_session 100) = Ok st')
    by (eexists; vm_compute; reflexivity).
  destruct H as [st' H]. exists st'.
  pose proof (confirm_staff _ _ _ _ H) as Hc.
  split; [exact Hc |].
  exact (confirm_appends_aggregate_row Staff (fresh_session 100) st' Hc).
Defined.

(** The log only grows along a session. *)
Lemma runs_log_prefix (st st' : SessionState) :
  runs st st' -> exists rows, sessionLog st' = sessionLog st ++ rows.
Proof.
  induction 1 as [st | f st st' st'' _ [rows IH] Hc].
  - exists []. rewrite app_nil_r. reflexivity.
  - apply confirms_log in Hc.
    exists (rows ++ [aggregate_row st'']).
    rewrite Hc, IH, app_assoc. reflexivity.
Qed.

(** C5: a confirmed run of one fragment leaves every session field
    owned by another fragment at the value it had before the run. *)
Theorem confirm_frame (f : Fragment) (st st' : SessionState) :
  confirms f st st' ->
  (forall k f', num_owner k = Some f' -> f' <> f -> num st' k = num st k)
  /\ (forall k f', int_owner k = Some f' -> f' <> f -> int st' k = int st k).
Proof.
  intros H. apply confirms_inv in H.
  destruct f; destruct H as [v ->]; split; intros k f' Hk Hf;
    destruct k; simpl in Hk; try discriminate Hk;
    injection Hk as <-; try reflexivity; contradiction Hf; reflexivity.
Qed.

Lemma confirm_frame_witness :
  exists st',
    confirms Commute (fresh_session 100) st'
    /\ (forall k f', num_owner k = Some f' -> f' <> Commute ->
                     num st' k = num (fresh_session 100) k)
    /\ (forall k f', int_owner k = Some f' -> f' <> Commute ->
                     int st' k = int (fresh_session 100) k).
Proof.
  assert (H : exists st',
             fn_FormCommute example_params example_commute_inputs true
               (fresh_session 100) = Ok st')
    by (eexists; vm_compute; reflexivity).
  destruct H as [st' H]. exists st'.
  pose proof (confirm_commute _ _ _ _ H) as Hc.
  split; [exact Hc |].
  exact (confirm_frame Commute (fresh_session 100) st' Hc).
Defined.

(** ** Runs on the example inputs *)


(** The scenario of the specification: headcount 100, 25% part-time, 35
    hours a week, 25 days of holiday and no other absence give 25
    part-time and 75 full-time members. *)
Example staff_scenario :
  part_time_num example_staff_inputs = 25%Z
  /\ full_time_num example_staff_inputs = 75%Z.
Proof. split; reflexivity. Qed.

(** ** FORM - WFH OPTIONS: signs of the emissions *)

Lemma fold_Qplus_nonneg (l : list Q) :
  forall acc, 0 <= acc -> Forall (Qle 0) l -> 0 <= fold_left Qplus l acc.
Proof.
  induction l as [| x l IH]; intros acc Hacc Hl; simpl.
  - exact Hacc.
  - inversion Hl as [| ? ? Hx Hl']; subst.
    apply IH; [| exact Hl'].
    setoid_replace 0 with (0 + 0) by ring.
    apply Qplus_le_compat; assumption.
Qed.

Lemma py_sum_nonneg (l : list Q) : Forall (Qle 0) l -> 0 <= py_sum l.
Proof. apply fold_Qplus_nonneg. apply Qle_refl. Qed.

Lemma percent_bounds (n : Z) :
  (0 <= n <= 100)%Z -> 0 <= inject_Z n / 100 /\ inject_Z n / 100 <= 1.
Proof.
  intros [Hlo Hhi]. unfold Qdiv, Qinv, Qmult, Qle, inject_Z; simpl. lia.
Qed.

Lemma rng_integers_ge (low high : Z) (g g' : Rng) (n : Z) :
  rng_integers low high g = Ok (n, g') -> (low <= n)%Z.
Proof.
  unfold rng_integers. destruct (high <=? low)%Z eqn:E; [discriminate |].
  apply Z.leb_gt in E. unfold bindM, draw, ret. intros H.
  injection H as <- _.
  pose proof (Z.mod_pos_bound (Z.of_nat (tape g (pos g))) (high - low)).
  lia.
Qed.

Lemma dict_get_In (d : list (string * Q)) (key : string) (v : Q) :
  dict_get d key = Ok v -> exists k, In (k, v) d.
Proof.
  induction d as [| [k w] d IH]; simpl; [discriminate |].
  destruct (String.eqb k key).
  - intros H. injection H as <-. exists k. left. reflexivity.
  - intros H. destruct (IH H) as [k' Hk']. exists k'. right. exact Hk'.
Qed.

Lemma monitor_loop_nonneg (params_d : Params) (inp : WfhInputs)
    (st : SessionState) :
  0 <= wfhHours st ->
  (forall k v, In (k, v) (ScreenOptions params_d) -> 0 <= v) ->
  forall (options : list string) (acc : Q) (g g' : Rng) (m : Q),
    0 <= acc ->
    monitor_loop params_d inp st options acc g = Ok (m, g') ->
    0 <= m.
Proof.
  intros Hh Hscreen.
  induction options as [| o rest IH]; intros acc g g' m Hacc H; simpl in H.
  - unfold ret in H. injection H as <- _. exact Hacc.
  - apply bindM_Ok in H. destruct H as (opt & g1 & Hopt & H).
    apply bindM_Ok in H. destruct H as (factor & g2 & Hf & H).
    apply rng_integers_ge in Hopt.
    unfold lift in Hf.
    destruct (dict_get (ScreenOptions params_d) o) as [w |] eqn:Ed;
      [| discriminate].
    injection Hf as -> _.
    destruct (dict_get_In _ _ _ Ed) as [k Hk]. apply Hscreen in Hk.
    eapply IH; [| exact H].
    assert (Ho : 0 <= inject_Z opt / 100).
    { unfold Qdiv, Qinv, Qmult, Qle, inject_Z; simpl. lia. }
    setoid_replace 0 with (0 + 0) by ring.
    apply Qplus_le_compat; [exact Hacc |].
    apply Qmult_le_0_compat; [apply Qmult_le_0_compat |]; assumption.
Qed.

Lemma picks_In {A : Type} (candidates : list A) (dflt : A) :
  candidates <> [] ->
  forall (size : nat) (g g' : Rng) (l : list A),
    picks candidates dflt size g = Ok (l, g') ->
    Forall (fun x => In x candidates) l.
Proof.
  intros Hne.
  induction size as [| size IH]; intros g g' l H; simpl in H.
  - unfold ret in H. injection H as <- _. constructor.
  - apply bindM_Ok in H. destruct H as (n & g1 & _ & H).
    apply bindM_Ok in H. destruct H as (rest & g2 & Hrest & H).
    unfold ret in H. injection H as <- _.
    constructor; [| eapply IH; exact Hrest].
    apply nth_In. apply Nat.mod_upper_bound.
    destruct candidates; [contradiction | discriminate].
Qed.

Lemma support_In {A : Type} (a : list A) :
  forall (p : list Q) (x : A), In x (support a p) -> In x a.
Proof.
  induction a as [| y a IH]; intros [| px p] x H; simpl in H; try contradiction.
  destruct (Qlt_bool 0 px).
  - destruct H as [<- | H]; [left; reflexivity | right; eapply IH; exact H].
  - right. eapply IH. exact H.
Qed.

Lemma rng_choice_In {A : Type} (a : list A) (p : option (list Q)) (size : Z)
    (g g' : Rng) (l : list A) :
  rng_choice a p size g = Ok (l, g') -> Forall (fun x => In x a) l.
Proof.
  unfold rng_choice. destruct (size <? 0)%Z; [discriminate |].
  destruct p as [ps |].
  - destruct (negb (length ps =? length a)%nat
              || existsb (fun x => Qlt_bool x 0) ps
              || negb (Qeq_bool (py_sum ps) 1)); [discriminate |].
    destruct (support a ps) as [| x s] eqn:Es.
    + destruct (size =? 0)%Z; [| discriminate].
      unfold ret. intros H. injection H as <- _. constructor.
    + intros H. apply picks_In in H; [| discriminate].
      eapply Forall_impl; [| exact H].
      intros y Hy. apply (support_In a ps). rewrite Es. exact Hy.
  - destruct a as [| x a'].
    + destruct (size =? 0)%Z; [| discriminate].
      unfold ret. intros H. injection H as <- _. constructor.
    + intros H. apply picks_In in H; [exact H | discriminate].
Qed.

Lemma zip_mul3_nonneg (a : list Z) :
  forall b c : list Q,
    Forall (fun i => (0 <= i)%Z) a -> Forall (Qle 0) b -> Forall (Qle 0) c ->
    Forall (Qle 0) (zip_mul3 a b c).
Proof.
  induction a as [| i a IH]; intros [| j b] [| k c] Ha Hb Hc; simpl;
    try constructor.
  - inversion Ha; inversion Hb; inversion Hc; subst.
    apply Qmult_le_0_compat; [apply Qmult_le_0_compat |]; try assumption.
    rewrite Zle_Qle in *. assumption.
  - inversion Ha; inversion Hb; inversion Hc; subst. apply IH; assumption.
Qed.

(** Where the fragment returns, on valid inputs, none of the emissions it
    computes is negative. *)
Lemma wfh_emissions_nonneg (params_d : Params) (inp : WfhInputs)
    (st : SessionState) (g g' : Rng) (v : WfhValues) :
  wfh_inputs_valid params_d inp st ->
  wfh_values params_d inp st g = Ok (v, g') ->
  0 <= newEmissionsIt v /\ 0 <= newEmissionsLight v
  /\ 0 <= newEmissionsHeat v /\ 0 <= newEmissionsWfh v.
Proof.
  intros (Hph & Hlap & Hdesk & Hscreen & Hel & Hli & Hha & Hhc
          & Hlp & Hpp & Hhours & Hrate & Hstaff) H.
  assert (Hw : 0 <= wfhHours st).
  { unfold wfhHours. apply Qmult_le_0_compat; [exact Hhours | lra]. }
  destruct (percent_bounds _ Hlp) as [Hl0 Hl1].
  destruct (percent_bounds _ Hpp) as [Hp0 _].
  unfold wfh_values in H.
  apply bindM_Ok in H. destruct H as (m & g1 & Hm & H).
  apply bindM_Ok in H. destruct H as (months & g2 & Hmonths & H).
  apply bindM_Ok in H. destruct H as (home & g3 & Hhome & H).
  apply bindM_Ok in H. destruct H as (share & g4 & Hshare & H).
  apply bindM_Ok in H. destruct H as (perHead & g5 & Hper & H).
  unfold ret in H. injection H as <- _. simpl.
  apply monitor_loop_nonneg in Hm; [| exact Hw | exact Hscreen | apply Qle_refl].
  apply rng_choice_In in Hmonths, Hhome, Hshare.
  assert (HIt : 0 <= py_sum [computerGroupRaw params_d inp st;
                             phoneGroupRaw params_d inp st; m]
                     * ElectricConvFactor params_d).
  { apply Qmult_le_0_compat; [| exact Hel].
    apply py_sum_nonneg. repeat constructor.
    - unfold computerGroupRaw, sliderLaptop.
      setoid_replace 0 with (0 + 0) by ring.
      apply Qplus_le_compat;
        (apply Qmult_le_0_compat; [apply Qmult_le_0_compat |]);
        try assumption; lra.
    - unfold phoneGroupRaw. apply Qmult_le_0_compat; [exact Hph |].
      unfold numPhone, np_floor, sliderPhone.
      change 0 with (inject_Z 0). rewrite <- Zle_Qle.
      change 0%Z with (Qfloor (inject_Z 0)).
      apply Qfloor_resp_le. change (inject_Z 0) with 0.
      apply Qmult_le_0_compat; [| exact Hp0].
      change 0 with (inject_Z 0). rewrite <- Zle_Qle. exact Hstaff.
    - exact Hm. }
  assert (HLight : 0 <= ElectricConvFactor params_d * wfhHours st
                        * LightAllowance params_d * (1 # 2)).
  { apply Qmult_le_0_compat;
      [apply Qmult_le_0_compat; [apply Qmult_le_0_compat |] |];
      try assumption; lra. }
  assert (Hgroup : Forall (Qle 0) (zip_mul3 months home share)).
  { apply zip_mul3_nonneg.
    - eapply Forall_impl; [| exact Hmonths].
      intros i Hi. unfold heatMonthsList in Hi.
      apply in_app_or in Hi. destruct Hi as [Hi | Hi];
        apply copies_In in Hi; subst i; lia.
    - eapply Forall_impl; [| exact Hhome].
      intros j Hj. simpl in Hj.
      destruct Hj as [<- | [<- | [<- | []]]]; lra.
    - eapply Forall_impl; [| exact Hshare].
      intros k Hk. simpl in Hk.
      destruct Hk as [<- | [<- | []]]; lra. }
  assert (HHeat : 0 <= perHead * wfhHours st * HeatAllowance params_d
                       * HeatConvFactor params_d).
  { apply Qmult_le_0_compat;
      [apply Qmult_le_0_compat; [apply Qmult_le_0_compat |] |];
      try assumption.
    unfold lift, py_div in Hper.
    destruct (Qeq_bool (inject_Z (int st sessionStaffTotal)) 0);
      [discriminate |].
    injection Hper as <- _.
    apply Qmult_le_0_compat; [apply py_sum_nonneg; exact Hgroup |].
    apply Qinv_le_0_compat.
    change 0 with (inject_Z 0). rewrite <- Zle_Qle. exact Hstaff. }
  repeat split; try assumption.
  apply py_sum_nonneg. repeat constructor; assumption.
Qed.

(** The fragment does return on a non-empty population: the example
    inputs are valid and give emissions for a headcount of 100. *)
Example wfh_values_example :
  wfh_inputs_valid example_params example_wfh_inputs (fresh_session 100)
  /\ exists v g',
       wfh_values example_params example_wfh_inputs (fresh_session 100) zero_rng
         = Ok (v, g')
       /\ 0 <= newEmissionsIt v /\ 0 <= newEmissionsLight v
       /\ 0 <= newEmissionsHeat v /\ 0 <= newEmissionsWfh v.
Proof.
  assert (Hv : wfh_inputs_valid example_params example_wfh_inputs
                 (fresh_session 100)).
  { unfold wfh_inputs_valid. simpl.
    repeat split; try lia; try (unfold Qle; simpl; lia).
    intros k v [H | [H | []]]; injection H as _ <-; unfold Qle; simpl; lia. }
  split; [exact Hv |].
  assert (H : exists v g',
             wfh_values example_params example_wfh_inputs (fresh_session 100)
               zero_rng = Ok (v, g'))
    by (eexists _, _; vm_compute; reflexivity).
  destruct H as (v & g' & H). exists v, g'.
  split; [exact H |].
  exact (wfh_emissions_nonneg _ _ _ _ _ _ Hv H).
Qed.

(** The scenarios of section 8 of the specification. *)
Example commute_cap_scenario :
  maxCommuteDistance example_commute_inputs = 200%Z.
Proof. reflexivity. Qed.

Example single_fte_scenario :
  spec_single_fte_hours_per_year 35 5 253 25 0 == 1596.
Proof. reflexivity. Qed.

(** * Further properties of the fragments *)

(** ** Rounding keeps integer bounds *)

Lemma round_half_even_lower (x : Q) (k : Z) :
  inject_Z k <= x -> (k <= round_half_even x)%Z.
Proof.
  intros H. unfold round_half_even.
  assert (Hf : (k <= Qfloor x)%Z).
  { rewrite <- (Qfloor_Z k). apply Qfloor_resp_le. exact H. }
  destruct (Qcompare (x - inject_Z (Qfloor x)) (1 # 2));
    [destruct (Z.even (Qfloor x)) | |]; lia.
Qed.

Lemma round_half_even_upper (x : Q) (k : Z) :
  x <= inject_Z k -> (round_half_even x <= k)%Z.
Proof.
  intros H. unfold round_half_even.
  pose proof (Qfloor_le x) as Hlo.
  assert (Hf : (Qfloor x <= k)%Z).
  { rewrite <- (Qfloor_Z k). apply Qfloor_resp_le. exact H. }
  destruct (Z.eq_dec (Qfloor x) k) as [Heq | Hne]; [| 
    destruct (Qcompare (x - inject_Z (Qfloor x)) (1 # 2));
      [destruct (Z.even (Qfloor x)) | |]; lia].
  assert (Hx : x - inject_Z (Qfloor x) < 1 # 2).
  { rewrite Heq in *. lra. }
  destruct (Qcompare (x - inject_Z (Qfloor x)) (1 # 2)) eqn:E.
  - apply Qeq_alt in E. lra.
  - lia.
  - apply Qgt_alt in E. lra.
Qed.

Lemma pow10_pos (d : nat) : 0 < inject_Z (10 ^ Z.of_nat d).
Proof.
  change 0 with (inject_Z 0). rewrite <- Zlt_Qlt.
  apply Z.pow_pos_nonneg; lia.
Qed.

Lemma np_round_lower (x : Q) (d : nat) (k : Z) :
  inject_Z k <= x -> inject_Z k <= np_round x d.
Proof.
  intros H. unfold np_round.
  pose proof (pow10_pos d) as Hs.
  apply Qle_shift_div_l; [exact Hs |].
  rewrite <- inject_Z_mult. rewrite <- Zle_Qle.
  apply round_half_even_lower. rewrite inject_Z_mult.
  apply Qmult_le_compat_r; [exact H | apply Qlt_le_weak; exact Hs].
Qed.

Lemma np_round_upper (x : Q) (d : nat) (k : Z) :
  x <= inject_Z k -> np_round x d <= inject_Z k.
Proof.
  intros H. unfold np_round.
  pose proof (pow10_pos d) as Hs.
  apply Qle_shift_div_r; [exact Hs |].
  rewrite <- inject_Z_mult. rewrite <- Zle_Qle.
  apply round_half_even_upper. rewrite inject_Z_mult.
  apply Qmult_le_compat_r; [exact H | apply Qlt_le_weak; exact Hs].
Qed.

(** ** FORM - STAFF: the committed values *)

(** The values of the fragment, once its three divisors are not zero. *)
Lemma staff_values_eq (params_d : Params) (inp : StaffInputs) (group : list Q) :
  ~ MaxWorkDaysPerWeek params_d == 0 ->
  ~ MaxWorkDaysPerYear params_d == 0 ->
  ~ MaxHoursPerWeek params_d == 0 ->
  fteHoursPerWeek inp <> 0%Z ->
  synth_staff_group params_d inp = Ok group ->
  staff_values params_d inp =
    Ok {| singleFtePerYear :=
            inject_Z (fteHoursPerWeek inp) / MaxWorkDaysPerWeek params_d
            * (MaxWorkDaysPerYear params_d
               - inject_Z (daysHolidayPerYear inp) - absenceDaysPerYear inp);
          total_staff_group := group;
          newFteTotal := np_round (py_sum group / MaxHoursPerWeek params_d) 2;
          newStaffTotal := total_staff_num inp;
          newAbsenceRate :=
            inject_Z (fteHoursPerWeek inp) / MaxWorkDaysPerWeek params_d
            * (MaxWorkDaysPerYear params_d
               - inject_Z (daysHolidayPerYear inp) - absenceDaysPerYear inp)
            / (inject_Z (fteHoursPerWeek inp) / MaxWorkDaysPerWeek params_d
               * MaxWorkDaysPerYear params_d);
          newTtlHrsPerYr :=
            inject_Z (fteHoursPerWeek inp) / MaxWorkDaysPerWeek params_d
            * (MaxWorkDaysPerYear params_d
               - inject_Z (daysHolidayPerYear inp) - absenceDaysPerYear inp)
            * np_round (py_sum group / MaxHoursPerWeek params_d) 2 |}.
Proof.
  intros HW HY HH Hfte Hgroup.
  assert (Hf : ~ inject_Z (fteHoursPerWeek inp) == 0).
  { intros H. apply Hfte. unfold Qeq in H. simpl in H. lia. }
  assert (Hdiv : ~ inject_Z (fteHoursPerWeek inp) / MaxWorkDaysPerWeek params_d
                   * MaxWorkDaysPerYear params_d == 0).
  { intros H. apply Qmult_integral in H. destruct H as [H | H].
    - exact (Qdiv_nonzero _ _ Hf HW H).
    - exact (HY H). }
  unfold staff_values.
  rewrite (py_div_Ok _ _ HW). simpl.
  rewrite Hgroup. simpl.
  rewrite (py_div_Ok _ _ HH). simpl.
  rewrite (py_div_Ok _ _ Hdiv). simpl.
  reflexivity.
Qed.

(** X1: the value committed as [sessionStaffAbsenceRate] is the share of
    the working days that remain after holidays and absences,
    (MaxWorkDaysPerYear - holidays - absences) / MaxWorkDaysPerYear; it
    lies in [0, 1] whenever holidays and absences together are between 0
    and the working days of the year. *)
Theorem staff_absence_rate (params_d : Params) (inp : StaffInputs) :
  ~ MaxWorkDaysPerWeek params_d == 0 ->
  ~ MaxHoursPerWeek params_d == 0 ->
  0 < MaxWorkDaysPerYear params_d ->
  fteHoursPerWeek inp <> 0%Z ->
  0 <= inject_Z (daysHolidayPerYear inp) + absenceDaysPerYear inp ->
  inject_Z (daysHolidayPerYear inp) + absenceDaysPerYear inp
    <= MaxWorkDaysPerYear params_d ->
  exists v,
    staff_values params_d inp = Ok v
    /\ newAbsenceRate v ==
         (MaxWorkDaysPerYear params_d
          - inject_Z (daysHolidayPerYear inp) - absenceDaysPerYear inp)
         / MaxWorkDaysPerYear params_d
    /\ 0 <= newAbsenceRate v /\ newAbsenceRate v <= 1.
Proof.
  intros HW HH HY Hfte Hlo Hhi.
  destruct (synth_staff_group_total params_d inp) as [group Hgroup].
  assert (HY' : ~ MaxWorkDaysPerYear params_d == 0) by lra.
  assert (Hf : ~ inject_Z (fteHoursPerWeek inp) == 0).
  { intros H. apply Hfte. unfold Qeq in H. simpl in H. lia. }
  eexists. split; [apply staff_values_eq; eassumption |].
  cbn [newAbsenceRate].
  set (Y := MaxWorkDaysPerYear params_d) in *.
  set (W := MaxWorkDaysPerWeek params_d) in *.
  set (f := inject_Z (fteHoursPerWeek inp)) in *.
  set (h := inject_Z (daysHolidayPerYear inp)) in *.
  set (a := absenceDaysPerYear inp) in *.
  assert (E : f / W * (Y - h - a) / (f / W * Y) == (Y - h - a) / Y).
  { field. repeat split; assumption. }
  split; [exact E |].
  rewrite E. split.
  - apply Qle_shift_div_l; [exact HY | lra].
  - apply Qle_shift_div_r; [exact HY | lra].
Qed.

Lemma staff_absence_rate_witness :
  exists v,
    staff_values example_params example_staff_inputs = Ok v
    /\ newAbsenceRate v == (253 - 25 - 0) / 253
    /\ 0 <= newAbsenceRate v /\ newAbsenceRate v <= 1.
Proof.
  apply (staff_absence_rate example_params example_staff_inputs);
    simpl; try (unfold Qeq, Qlt, Qle; simpl); lia.
Defined.

Lemma linspace_5_in_range (lo hi x : Q) :
  lo <= hi -> In x (linspace lo hi 5 false) -> in_range lo hi x.
Proof.
  intros Hle Hin. unfold linspace in Hin. simpl in Hin.
  unfold inject_Z in Hin. unfold in_range.
  assert (Hstep : (hi - lo) / 5 * 5 == hi - lo) by field.
  set (step := (hi - lo) / 5) in *.
  repeat (destruct Hin as [<- | Hin]; [split; lra |]).
  contradiction.
Qed.

(** The shape and the size of the staffing population. *)
Lemma synth_staff_group_shape (params_d : Params) (inp : StaffInputs) :
  exists four fifth,
    fill_buckets (part_time_group_lims params_d inp) (part_time_num inp) 0
      [1 # 10; 2 # 10; 4 # 10; 2 # 10] [] = Ok four
    /\ nth_error (part_time_group_lims params_d inp) 4 = Some fifth
    /\ synth_staff_group params_d inp =
         Ok (copies (inject_Z (fteHoursPerWeek inp)) (full_time_num inp)
             ++ four ++ copies fifth (part_time_num inp - len four)).
Proof.
  destruct (fill_buckets_total (part_time_group_lims params_d inp)
              (part_time_num inp) [1 # 10; 2 # 10; 4 # 10; 2 # 10] 0 [])
    as [four Hfour]; [simpl; lia |].
  eexists four, _. split; [exact Hfour |]. split; [reflexivity |].
  unfold synth_staff_group, part_time_group. rewrite Hfour. reflexivity.
Qed.

Lemma synth_staff_group_len (params_d : Params) (inp : StaffInputs)
    (group : list Q) :
  (0 <= total_staff_num inp)%Z ->
  (0 <= part_time_slider inp < 100)%Z ->
  synth_staff_group params_d inp = Ok group ->
  len group = total_staff_num inp.
Proof.
  intros Ht Hs Hg.
  destruct (synth_staff_group_shape params_d inp) as (four & fifth & Hf & _ & E).
  rewrite E in Hg. injection Hg as <-.
  pose proof (part_time_num_bounds inp Ht Hs) as Hn.
  pose proof (fill_buckets_length _ _ _ _ _ _ Hf) as Hlen.
  pose proof (staff_bucket_total (part_time_num inp) (proj1 Hn)) as Hsum.
  simpl length in Hlen. rewrite Nat.add_0_l in Hlen.
  unfold len, full_time_num.
  rewrite !length_app, !copies_length. unfold len. lia.
Qed.

Lemma synth_staff_group_in_range (params_d : Params) (inp : StaffInputs)
    (group : list Q) :
  MinHoursPerWeek params_d <= inject_Z (fteHoursPerWeek inp) ->
  synth_staff_group params_d inp = Ok group ->
  Forall (in_range (MinHoursPerWeek params_d) (inject_Z (fteHoursPerWeek inp)))
         group.
Proof.
  intros Hle Hg.
  destruct (synth_staff_group_shape params_d inp) as (four & fifth & Hf & H5 & E).
  rewrite E in Hg. injection Hg as <-.
  apply Forall_forall. intros x Hx.
  apply in_app_or in Hx. destruct Hx as [Hx | Hx].
  { apply copies_In in Hx. subst x. split; [exact Hle | apply Qle_refl]. }
  apply in_app_or in Hx. destruct Hx as [Hx | Hx].
  - destruct (fill_buckets_In _ _ _ _ _ _ Hf x Hx) as [[] | Hin].
    apply linspace_5_in_range; assumption.
  - apply copies_In in Hx. subst x.
    apply linspace_5_in_range; [exact Hle |].
    eapply nth_error_In. exact H5.
Qed.

(** X2: every member of the synthesized staffing population works
    between [MinHoursPerWeek] and the full-time hours per week, as soon
    as the former does not exceed the latter. *)
Theorem staff_hours_in_range (params_d : Params) (inp : StaffInputs) :
  MinHoursPerWeek params_d <= inject_Z (fteHoursPerWeek inp) ->
  exists group,
    synth_staff_group params_d inp = Ok group
    /\ Forall (in_range (MinHoursPerWeek params_d)
                        (inject_Z (fteHoursPerWeek inp))) group.
Proof.
  intros Hle.
  destruct (synth_staff_group_total params_d inp) as [group Hg].
  exists group. split; [exact Hg |].
  apply synth_staff_group_in_range; assumption.
Qed.

Lemma staff_hours_in_range_witness :
  exists group,
    synth_staff_group example_params example_staff_inputs = Ok group
    /\ Forall (in_range 8 35) group.
Proof.
  apply (staff_hours_in_range example_params example_staff_inputs).
  unfold Qle; simpl; lia.
Defined.

(** X3: with a headcount of 0 the staffing fragment returns: the
    population is empty, and the total FTE and the total hours per year it
    commits are 0. *)
Theorem staff_empty_population (params_d : Params) (inp : StaffInputs) :
  ~ MaxWorkDaysPerWeek params_d == 0 ->
  ~ MaxWorkDaysPerYear params_d == 0 ->
  ~ MaxHoursPerWeek params_d == 0 ->
  fteHoursPerWeek inp <> 0%Z ->
  total_staff_num inp = 0%Z ->
  exists v,
    staff_values params_d inp = Ok v
    /\ total_staff_group v = []
    /\ newStaffTotal v = 0%Z
    /\ newFteTotal v == 0
    /\ newTtlHrsPerYr v == 0.
Proof.
  intros HW HY HH Hfte H0.
  assert (Hg : synth_staff_group params_d inp = Ok []).
  { destruct inp as [t s h d a]. simpl in H0. subst t. reflexivity. }
  eexists. split; [apply staff_values_eq; eassumption |].
  cbn [total_staff_group newStaffTotal newFteTotal newTtlHrsPerYr].
  assert (Hr : np_round (py_sum [] / MaxHoursPerWeek params_d) 2 == 0).
  { apply Qle_antisym.
    - apply (np_round_upper _ 2 0). unfold py_sum. simpl.
      unfold Qdiv. rewrite Qmult_0_l. apply Qle_refl.
    - apply (np_round_lower _ 2 0). unfold py_sum. simpl.
      unfold Qdiv. rewrite Qmult_0_l. apply Qle_refl. }
  split; [reflexivity |]. split; [exact H0 |]. split; [exact Hr |].
  rewrite Hr. ring.
Qed.

Lemma staff_empty_population_witness :
  exists v,
    staff_values example_params empty_staff_inputs = Ok v
    /\ total_staff_group v = []
    /\ newStaffTotal v = 0%Z
    /\ newFteTotal v == 0
    /\ newTtlHrsPerYr v == 0.
Proof.
  apply (staff_empty_population example_params empty_staff_inputs);
    simpl; try (unfold Qeq; simpl); lia.
Defined.

Lemma fold_Qplus_upper (hi : Q) (l : list Q) :
  forall acc,
    Forall (fun x => x <= hi) l ->
    fold_left Qplus l acc <= acc + inject_Z (len l) * hi.
Proof.
  induction l as [| x l IH]; intros acc Hl; simpl.
  - unfold len. simpl. change (inject_Z 0) with 0. lra.
  - inversion Hl as [| ? ? Hx Hl']; subst.
    specialize (IH (acc + x) Hl').
    unfold len in *. simpl length. rewrite Nat2Z.inj_succ.
    unfold Z.succ. rewrite inject_Z_plus. change (inject_Z 1) with 1.
    set (n := inject_Z (Z.of_nat (length l))) in *. lra.
Qed.

Lemma py_sum_upper (hi : Q) (l : list Q) :
  Forall (fun x => x <= hi) l -> py_sum l <= inject_Z (len l) * hi.
Proof.
  intros H. unfold py_sum.
  pose proof (fold_Qplus_upper hi l 0 H). lra.
Qed.

Lemma staff_values_bounds (params_d : Params) (inp : StaffInputs) :
  0 < MaxWorkDaysPerWeek params_d ->
  ~ MaxWorkDaysPerYear params_d == 0 ->
  0 <= MinHoursPerWeek params_d ->
  MinHoursPerWeek params_d <= inject_Z (fteHoursPerWeek inp) ->
  inject_Z (fteHoursPerWeek inp) <= MaxHoursPerWeek params_d ->
  fteHoursPerWeek inp <> 0%Z ->
  (0 <= total_staff_num inp)%Z ->
  (0 <= part_time_slider inp < 100)%Z ->
  inject_Z (daysHolidayPerYear inp) + absenceDaysPerYear inp
    <= MaxWorkDaysPerYear params_d ->
  exists v,
    staff_values params_d inp = Ok v
    /\ 0 <= newFteTotal v
    /\ newFteTotal v <= inject_Z (total_staff_num inp)
    /\ 0 <= newTtlHrsPerYr v
    /\ newStaffTotal v = total_staff_num inp.
Proof.
  intros HW HY Hmin Hle Hmax Hfte Ht Hs Hdays.
  destruct (synth_staff_group_total params_d inp) as [group Hg].
  pose proof (synth_staff_group_in_range _ _ _ Hle Hg) as Hrange.
  pose proof (synth_staff_group_len _ _ _ Ht Hs Hg) as Hlen.
  assert (Hf0 : 0 <= inject_Z (fteHoursPerWeek inp)) by lra.
  assert (Hf : 0 < inject_Z (fteHoursPerWeek inp)).
  { apply Qle_lteq in Hf0. destruct Hf0 as [Hlt | Heq]; [exact Hlt |].
    exfalso. apply Hfte. unfold Qeq in Heq. simpl in Heq. lia. }
  assert (HH : 0 < MaxHoursPerWeek params_d) by lra.
  assert (Hsum0 : 0 <= py_sum group).
  { apply py_sum_nonneg. eapply Forall_impl; [| exact Hrange].
    intros x [Hx _]. lra. }
  assert (Hsum1 : py_sum group
                  <= inject_Z (total_staff_num inp) * MaxHoursPerWeek params_d).
  { rewrite <- Hlen.
    apply Qle_trans with (inject_Z (len group) * inject_Z (fteHoursPerWeek inp)).
    - apply py_sum_upper. eapply Forall_impl; [| exact Hrange].
      intros x [_ Hx]. exact Hx.
    - rewrite !(Qmult_comm (inject_Z (len group))).
      apply Qmult_le_compat_r; [exact Hmax |].
      change 0 with (inject_Z 0). rewrite <- Zle_Qle. unfold len. lia. }
  assert (Hfte0 : 0 <= np_round (py_sum group / MaxHoursPerWeek params_d) 2).
  { apply (np_round_lower _ 2 0).
    apply Qle_shift_div_l; [exact HH |]. change (inject_Z 0) with 0. lra. }
  eexists. split.
  { apply staff_values_eq; try eassumption; lra. }
  cbn [newFteTotal newTtlHrsPerYr newStaffTotal].
  split; [exact Hfte0 |]. split; [| split; [| reflexivity]].
  - apply np_round_upper. apply Qle_shift_div_r; [exact HH | exact Hsum1].
  - apply Qmult_le_0_compat; [| exact Hfte0].
    apply Qmult_le_0_compat; [| lra].
    apply Qle_shift_div_l; [exact HW | lra].
Qed.


(** X4: the total FTE the staffing fragment commits lies between 0 and the
    headcount, provided the weekly hours are ordered 0 <= MinHoursPerWeek
    <= full-time hours <= MaxHoursPerWeek; the total hours per year are
    then non-negative when holidays and absences fit in the working
    year. *)
Theorem staff_fte_bounds (params_d : Params) (inp : StaffInputs) :
  0 < MaxWorkDaysPerWeek params_d ->
  ~ MaxWorkDaysPerYear params_d == 0 ->
  0 <= MinHoursPerWeek params_d ->
  MinHoursPerWeek params_d <= inject_Z (fteHoursPerWeek inp) ->
  inject_Z (fteHoursPerWeek inp) <= MaxHoursPerWeek params_d ->
  fteHoursPerWeek inp <> 0%Z ->
  (0 <= total_staff_num inp)%Z ->
  (0 <= part_time_slider inp < 100)%Z ->
  inject_Z (daysHolidayPerYear inp) + absenceDaysPerYear inp
    <= MaxWorkDaysPerYear params_d ->
  exists v,
    staff_values params_d inp = Ok v
    /\ 0 <= newFteTotal v
    /\ newFteTotal v <= inject_Z (total_staff_num inp)
    /\ 0 <= newTtlHrsPerYr v.
Proof.
  intros HW HY Hmin Hle Hmax Hfte Ht Hs Hdays.
  destruct (staff_values_bounds params_d inp HW HY Hmin Hle Hmax Hfte Ht Hs Hdays)
    as (v & Hv & H0 & H1 & H2 & _).
  exists v. repeat split; assumption.
Qed.

Lemma staff_fte_bounds_witness :
  exists v,
    staff_values example_params example_staff_inputs = Ok v
    /\ 0 <= newFteTotal v
    /\ newFteTotal v <= 100
    /\ 0 <= newTtlHrsPerYr v.
Proof.
  apply (staff_fte_bounds example_params example_staff_inputs);
    simpl; try (unfold Qeq, Qlt, Qle; simpl); lia.
Defined.

(** ** FORM - COMMUTE OPTIONS: when the fragment returns *)

(** The bus/train slider is accepted as soon as the upper end of the mix
    slider leaves it the range 1..2 or a wider one. *)
Lemma st_slider_bus_train (hi position : Z) :
  (hi <= 98)%Z ->
  st_slider 1 (100 - hi) (py_int (inject_Z (100 - hi) / 2)) position
  = Ok position.
Proof.
  intros Hhi. unfold st_slider.
  destruct (100 - hi <=? 1)%Z eqn:E; [apply Z.leb_le in E; lia |].
  reflexivity.
Qed.

Lemma commute_values_eq (params_d : Params) (inp : CommuteInputs)
    (st : SessionState) (group : list Q) :
  synth_distance_group params_d inp (int st sessionStaffTotal) = Ok group ->
  ~ MaxWorkDaysPerMonth params_d == 0 ->
  (tmax (sliderTransMix inp) <= 98)%Z ->
  commute_values params_d inp st =
    Ok {| distance_group := group;
          distanceCommute := commuteCapped inp (commuteRaw inp group);
          newOfficeRate :=
            np_round (inject_Z (sliderOfficeVisits inp)
                      / MaxWorkDaysPerMonth params_d) 4;
          newDistanceTotal :=
            py_int (py_sum (commuteCapped inp (commuteRaw inp group)));
          newEmissionsTransport :=
            transport_emissions params_d inp (int st sessionDistanceTotal) |}.
Proof.
  intros Hg HM Hmix. unfold commute_values.
  rewrite Hg. cbn [bind]. rewrite (py_div_Ok _ _ HM). cbn [bind].
  rewrite (st_slider_bus_train _ _ Hmix). reflexivity.
Qed.

(** X5: with a closeness table of at most 22 proportions, a non-zero
    [MaxWorkDaysPerMonth] and a mix slider whose upper end is at most 98
    (so that the bus/train slider has a range and a default within it),
    the commute fragment returns, and every distance it synthesizes lies
    between the two ends of the distance slider. *)
Theorem commute_returns_in_range (params_d : Params) (inp : CommuteInputs)
    (st : SessionState) :
  (length (closeness_table params_d (radioCloseFar inp)) <= 22)%nat ->
  ~ MaxWorkDaysPerMonth params_d == 0 ->
  (tmax (sliderTransMix inp) <= 98)%Z ->
  exists v,
    commute_values params_d inp st = Ok v
    /\ Forall (in_range (inject_Z (tmin (sliderDistance inp)))
                        (inject_Z (tmax (sliderDistance inp))))
              (distance_group v).
Proof.
  intros Hlen HM Hmix.
  destruct (synth_distance_group_total params_d inp (int st sessionStaffTotal) Hlen)
    as [group Hg].
  eexists. split; [apply commute_values_eq; eassumption |].
  cbn [distance_group].
  eapply synth_distance_group_in_range. exact Hg.
Qed.

Lemma commute_returns_in_range_witness :
  exists v,
    commute_values example_params example_commute_inputs (fresh_session 100)
      = Ok v
    /\ Forall (in_range 1 50) (distance_group v).
Proof.
  apply (commute_returns_in_range example_params example_commute_inputs
           (fresh_session 100)).
  - simpl. lia.
  - unfold Qeq. simpl. lia.
  - unfold tmax. simpl. lia.
Defined.



Lemma fill_buckets_IndexError (lims : list Q) (scale : Z) (table : list Q) :
  forall (ix : nat) (group : list Q) (j : nat) (f : Q),
    nth_error table j = Some f ->
    (length lims <= ix + j)%nat ->
    (0 < py_int (inject_Z scale * f))%Z ->
    fill_buckets lims scale ix table group = Raise IndexError.
Proof.
  induction table as [| ix2 rest IH]; intros ix group j f Hj Hlen Hpos.
  - destruct j; discriminate Hj.
  - simpl. destruct (py_int (inject_Z scale * ix2) <=? 0)%Z eqn:E.
    + apply Z.leb_le in E. destruct j as [| j].
      * simpl in Hj. injection Hj as ->. lia.
      * simpl in Hj. eapply IH; [exact Hj | lia | exact Hpos].
    + unfold py_index. destruct (nth_error lims ix) as [v |] eqn:En.
      * simpl. destruct j as [| j].
        -- assert (nth_error lims ix <> None) by congruence.
           apply nth_error_Some in H. lia.
        -- simpl in Hj. eapply IH; [exact Hj | lia | exact Hpos].
      * reflexivity.
Qed.

(** X7: a closeness table with more than 22 proportions makes the
    fragment raise [IndexError] as soon as one of the proportions at
    position 20 or later (of the table without its last two entries)
    yields a positive bucket count: there are only 20 distance limits. *)
Theorem commute_long_table_raises (params_d : Params) (inp : CommuteInputs)
    (st : SessionState) (j : nat) (f : Q) :
  nth_error (drop_last2 (closeness_table params_d (radioCloseFar inp))) j
    = Some f ->
  (20 <= j)%nat ->
  (0 < py_int (inject_Z (tmax (sliderDistance inp)) * f))%Z ->
  commute_values params_d inp st = Raise IndexError.
Proof.
  intros Hj H20 Hpos. unfold commute_values, synth_distance_group.
  rewrite (fill_buckets_IndexError _ _ _ 0 [] j f Hj); try assumption.
  reflexivity.
Qed.

Lemma commute_long_table_raises_witness :
  commute_values (with_VeryCloseList (percents long_table) example_params)
    example_commute_inputs (fresh_session 100) = Raise IndexError.
Proof.
  apply (commute_long_table_raises
           (with_VeryCloseList (percents long_table) example_params)
           example_commute_inputs (fresh_session 100) 20 (4 # 100)).
  - reflexivity.
  - lia.
  - vm_compute. reflexivity.
Defined.

Lemma drop_last2_app {A : Type} (t : list A) (a b : A) :
  drop_last2 (t ++ [a; b]) = t.
Proof.
  unfold drop_last2. rewrite length_app. simpl.
  replace (length t + 2 - 2)%nat with (length t + 0)%nat by lia.
  rewrite firstn_app_2. simpl. apply app_nil_r.
Qed.

(** X8: the last two proportions of a closeness table are never used:
    two configurations whose tables differ only there synthesize the same
    population. *)
Theorem commute_last_two_ignored (p p' : Params) (inp : CommuteInputs)
    (staffTotal : Z) (t : list Q) (a b a' b' : Q) :
  closeness_table p (radioCloseFar inp) = t ++ [a; b] ->
  closeness_table p' (radioCloseFar inp) = t ++ [a'; b'] ->
  synth_distance_group p inp staffTotal = synth_distance_group p' inp staffTotal.
Proof.
  intros H H'. unfold synth_distance_group.
  rewrite H, H', !drop_last2_app. reflexivity.
Qed.

Lemma commute_last_two_ignored_witness :
  synth_distance_group
    (with_VeryCloseList (percents [50; 50; 0; 0]%Z) example_params)
    example_commute_inputs 100
  = synth_distance_group
      (with_VeryCloseList (percents [50; 50; 70; 90]%Z) example_params)
      example_commute_inputs 100.
Proof.
  apply (commute_last_two_ignored _ _ example_commute_inputs 100
           (percents [50; 50]%Z) (0 # 100) (0 # 100) (70 # 100) (90 # 100));
    reflexivity.
Defined.

(** X9: when the two ends of the distance slider coincide, every
    synthesized distance is that value. *)
Theorem commute_degenerate_range (params_d : Params) (inp : CommuteInputs)
    (staffTotal : Z) (group : list Q) :
  tmin (sliderDistance inp) = tmax (sliderDistance inp) ->
  synth_distance_group params_d inp staffTotal = Ok group ->
  Forall (fun d => d == inject_Z (tmax (sliderDistance inp))) group.
Proof.
  intros Heq H.
  apply synth_distance_group_in_range in H. rewrite Heq in H.
  eapply Forall_impl; [| exact H].
  intros d [Hlo Hhi]. apply Qle_antisym; assumption.
Qed.

Lemma commute_degenerate_range_witness :
  exists group,
    synth_distance_group example_params point_commute_inputs 100 = Ok group
    /\ Forall (fun d => d == 7) group.
Proof.
  assert (H : exists group,
             synth_distance_group example_params point_commute_inputs 100
               = Ok group)
    by (eexists; vm_compute; reflexivity).
  destruct H as [group H]. exists group. split; [exact H |].
  apply (commute_degenerate_range example_params point_commute_inputs 100 group);
    [reflexivity | exact H].
Defined.

Lemma commute_values_office_rate (params_d : Params) (inp : CommuteInputs)
    (st : SessionState) (v : CommuteValues) :
  0 < MaxWorkDaysPerMonth params_d ->
  (0 <= sliderOfficeVisits inp)%Z ->
  inject_Z (sliderOfficeVisits inp) <= MaxWorkDaysPerMonth params_d ->
  commute_values params_d inp st = Ok v ->
  0 <= newOfficeRate v /\ newOfficeRate v <= 1.
Proof.
  intros HM H0 H1 H. unfold commute_values in H.
  apply bind_Ok in H. destruct H as (group & _ & H).
  rewrite py_div_Ok in H by lra. cbn [bind] in H.
  apply bind_Ok in H. destruct H as (pos & _ & H). injection H as <-.
  cbn [newOfficeRate]. split.
  - apply (np_round_lower _ 4 0).
    apply Qle_shift_div_l; [exact HM |].
    change (inject_Z 0) with 0. rewrite Qmult_0_l.
    change 0 with (inject_Z 0). rewrite <- Zle_Qle. exact H0.
  - apply (np_round_upper _ 4 1).
    apply Qle_shift_div_r; [exact HM |].
    change (inject_Z 1) with 1. rewrite Qmult_1_l. exact H1.
Qed.


(** X10: the office attendance rate the fragment commits lies in [0, 1]
    whenever the number of office visits is between 0 and
    [MaxWorkDaysPerMonth]. *)
Theorem commute_office_rate_bounds (params_d : Params) (inp : CommuteInputs)
    (st : SessionState) (v : CommuteValues) :
  0 < MaxWorkDaysPerMonth params_d ->
  (0 <= sliderOfficeVisits inp)%Z ->
  inject_Z (sliderOfficeVisits inp) <= MaxWorkDaysPerMonth params_d ->
  commute_values params_d inp st = Ok v ->
  0 <= newOfficeRate v /\ newOfficeRate v <= 1.
Proof.
  intros HM H0 H1 H.
  exact (commute_values_office_rate params_d inp st v HM H0 H1 H).
Qed.

Lemma commute_office_rate_bounds_witness :
  exists v,
    commute_values example_params example_commute_inputs (fresh_session 100)
      = Ok v
    /\ 0 <= newOfficeRate v /\ newOfficeRate v <= 1.
Proof.
  assert (H : exists v,
             commute_values example_params example_commute_inputs
               (fresh_session 100) = Ok v)
    by (eexists; vm_compute; reflexivity).
  destruct H as [v H]. exists v. split; [exact H |].
  apply (commute_office_rate_bounds example_params example_commute_inputs
           (fresh_session 100) v); try exact H;
    simpl; try (unfold Qlt, Qle; simpl); lia.
Defined.

(** ** FORM - COMMUTE OPTIONS: totals and emissions *)

Lemma py_int_nonneg (x : Q) : 0 <= x -> py_int x = Qfloor x.
Proof.
  intros H. unfold py_int, Qfloor. destruct x as [n d]. simpl.
  apply Z.quot_div_nonneg; [| lia].
  unfold Qle in H. simpl in H. lia.
Qed.

Lemma commuteCapped_bounds (inp : CommuteInputs) (raw : list Q) :
  (0 <= tmax (sliderDistance inp))%Z ->
  Forall (Qle 0) raw ->
  Forall (in_range 0 (inject_Z (maxCommuteDistance inp))) (commuteCapped inp raw).
Proof.
  intros Hmax Hraw. unfold commuteCapped. apply Forall_map.
  eapply Forall_impl; [| exact Hraw].
  intros d Hd. unfold Qlt_bool.
  assert (Hcap : 0 <= inject_Z (maxCommuteDistance inp)).
  { change 0 with (inject_Z 0). rewrite <- Zle_Qle.
    unfold maxCommuteDistance. lia. }
  destruct (Qle_bool (inject_Z (maxCommuteDistance inp)) d) eqn:E; simpl.
  - split; [exact Hcap | apply Qle_refl].
  - split; [exact Hd |].
    destruct (Qlt_le_dec d (inject_Z (maxCommuteDistance inp))) as [H | H].
    + apply Qlt_le_weak. exact H.
    + apply Qle_bool_iff in H. rewrite H in E. discriminate E.
Qed.

(** X11: with a distance slider and a number of office visits that are not
    negative, the total commute distance the fragment commits is between
    0 and the size of the population times the cap
    [max(sliderDistance) * 4]. *)
Theorem commute_distance_total_bounds (params_d : Params)
    (inp : CommuteInputs) (st : SessionState) (v : CommuteValues) :
  (0 <= tmin (sliderDistance inp))%Z ->
  (0 <= sliderOfficeVisits inp)%Z ->
  commute_values params_d inp st = Ok v ->
  (0 <= newDistanceTotal v
   <= len (distance_group v) * (tmax (sliderDistance inp) * 4))%Z.
Proof.
  intros Hmin Hvis H.
  pose proof (tmin_le_tmax (sliderDistance inp)) as Hmm.
  unfold commute_values in H.
  apply bind_Ok in H. destruct H as (group & Hg & H).
  apply bind_Ok in H. destruct H as (rate & _ & H).
  apply bind_Ok in H. destruct H as (pos & _ & H).
  injection H as <-. cbn [newDistanceTotal distance_group].
  apply synth_distance_group_in_range in Hg.
  assert (Hraw : Forall (Qle 0) (commuteRaw inp group)).
  { unfold commuteRaw. apply Forall_map.
    eapply Forall_impl; [| exact Hg].
    intros d [Hd _].
    assert (0 <= inject_Z (tmin (sliderDistance inp))).
    { change 0 with (inject_Z 0). rewrite <- Zle_Qle. exact Hmin. }
    apply Qmult_le_0_compat; [apply Qmult_le_0_compat; lra |].
    change 0 with (inject_Z 0). rewrite <- Zle_Qle. exact Hvis. }
  pose proof (commuteCapped_bounds inp _ ltac:(lia) Hraw) as Hcap.
  assert (Hs0 : 0 <= py_sum (commuteCapped inp (commuteRaw inp group))).
  { apply py_sum_nonneg. eapply Forall_impl; [| exact Hcap].
    intros d [Hd _]. exact Hd. }
  assert (Hs1 : py_sum (commuteCapped inp (commuteRaw inp group))
                <= inject_Z (len group * (tmax (sliderDistance inp) * 4))).
  { rewrite inject_Z_mult.
    replace (len group)
      with (len (commuteCapped inp (commuteRaw inp group))).
    - apply py_sum_upper. eapply Forall_impl; [| exact Hcap].
      intros d [_ Hd]. exact Hd.
    - unfold len, commuteCapped, commuteRaw. rewrite !length_map. reflexivity. }
  rewrite (py_int_nonneg _ Hs0). split.
  - rewrite <- (Qfloor_Z 0). apply Qfloor_resp_le. exact Hs0.
  - rewrite <- (Qfloor_Z (len group * _)). apply Qfloor_resp_le. exact Hs1.
Qed.

Lemma commute_distance_total_bounds_witness :
  exists v,
    commute_values example_params example_commute_inputs (fresh_session 100)
      = Ok v
    /\ (0 <= newDistanceTotal v <= len (distance_group v) * (50 * 4))%Z.
Proof.
  assert (H : exists v,
             commute_values example_params example_commute_inputs
               (fresh_session 100) = Ok v)
    by (eexists; vm_compute; reflexivity).
  destruct H as [v H]. exists v. split; [exact H |].
  apply (commute_distance_total_bounds example_params example_commute_inputs
           (fresh_session 100) v); try exact H; unfold tmin; simpl; lia.
Defined.

(** X12: the transport emissions are not negative when the committed
    distance total is not negative, the mix sliders are within their
    bounds, the conversion factors are not negative and the petrol ratio
    is between 0 and 1. *)
Theorem transport_emissions_nonneg (params_d : Params) (inp : CommuteInputs)
    (distanceTotal : Z) :
  (0 <= distanceTotal)%Z ->
  (1 <= tmin (sliderTransMix inp))%Z ->
  (tmax (sliderTransMix inp) <= 100)%Z ->
  (1 <= sliderBusTrain inp <= 100 - tmax (sliderTransMix inp))%Z ->
  0 <= PetrolRatio params_d (selectCarRegion inp) ->
  PetrolRatio params_d (selectCarRegion inp) <= 1 ->
  0 <= CarPetrolConvFactor params_d ->
  0 <= CarDieselConvFactor params_d ->
  0 <= BusConvFactor params_d ->
  0 <= TrainConvFactor params_d ->
  0 <= transport_emissions params_d inp distanceTotal.
Proof.
  intros Hd Hlo Hhi Hbus Hr0 Hr1 Hp Hdi Hb Ht.
  assert (Hcar : 0 <= inject_Z (distanceTotal * car_pct inp)).
  { change 0 with (inject_Z 0). rewrite <- Zle_Qle.
    unfold car_pct, tmin, tmax in *. nia. }
  assert (Hbusd : 0 <= inject_Z (distanceTotal * bus_pct inp)).
  { change 0 with (inject_Z 0). rewrite <- Zle_Qle. unfold bus_pct. nia. }
  assert (Htrain : 0 <= inject_Z (distanceTotal * train_pct inp)).
  { change 0 with (inject_Z 0). rewrite <- Zle_Qle.
    unfold train_pct, bus_pct. nia. }
  unfold transport_emissions. apply py_sum_nonneg.
  set (car := inject_Z (distanceTotal * car_pct inp)) in *.
  set (r := PetrolRatio params_d (selectCarRegion inp)) in *.
  repeat constructor.
  - apply Qmult_le_0_compat; [apply Qmult_le_0_compat |]; assumption.
  - apply Qmult_le_0_compat; [| assumption].
    setoid_replace (car - car * r) with (car * (1 - r)) by ring.
    apply Qmult_le_0_compat; [assumption | lra].
  - apply Qmult_le_0_compat; assumption.
  - apply Qmult_le_0_compat; assumption.
Qed.

Lemma transport_emissions_nonneg_witness :
  0 <= transport_emissions example_params example_commute_inputs 13154.
Proof.
  apply (transport_emissions_nonneg example_params example_commute_inputs 13154);
    unfold tmin, tmax; simpl; try (unfold Qle; simpl); lia.
Defined.

(** ** Sequences of confirmed runs *)



(** X14: along any sequence of confirmed runs the log keeps the property
    that the total of every row is the sum of its transport and WFH
    entries. *)
Theorem runs_log_consistent (st st' : SessionState) :
  Forall row_consistent (sessionLog st) ->
  runs st st' ->
  Forall row_consistent (sessionLog st').
Proof.
  intros H0 Hruns.
  induction Hruns as [st | f st st' st'' _ IH Hc]; [exact H0 |].
  specialize (IH H0).
  pose proof (confirms_log _ _ _ Hc) as Hlog.
  apply confirms_inv in Hc.
  rewrite Hlog. apply Forall_app. split; [exact IH |].
  constructor; [| constructor].
  destruct f; destruct Hc as [v ->]; reflexivity.
Qed.

Lemma runs_log_consistent_witness :
  exists st',
    runs (fresh_session 100) st'
    /\ length (sessionLog st') = 3%nat
    /\ Forall row_consistent (sessionLog st').
Proof.
  assert (H1 : exists st1,
             fn_FormStaff example_params example_staff_inputs true
               (fresh_session 100) = Ok st1)
    by (eexists; vm_compute; reflexivity).
  destruct H1 as [st1 H1].
  assert (H2 : exists st2,
             fn_FormCommute example_params example_commute_inputs true st1
               = Ok st2).
  { unfold fn_FormStaff in H1. apply bind_Ok in H1.
    destruct H1 as (v & _ & H1). injection H1 as <-.
    eexists. vm_compute. reflexivity. }
  destruct H2 as [st2 H2]. exists st2.
  assert (Hr : runs (fresh_session 100) st2).
  { eapply runs_step; [eapply runs_step; [apply runs_nil |] |].
    - eapply confirm_staff. exact H1.
    - eapply confirm_commute. exact H2. }
  split; [exact Hr |]. split.
  - rewrite (confirms_log _ _ _ (confirm_commute _ _ _ _ H2)).
    rewrite (confirms_log _ _ _ (confirm_staff _ _ _ _ H1)).
    reflexivity.
  - apply (runs_log_consistent (fresh_session 100) st2); [| exact Hr].
    simpl. repeat constructor.
Defined.

Lemma wfh_values_sum (params_d : Params) (inp : WfhInputs)
    (st : SessionState) (g g' : Rng) (v : WfhValues) :
  wfh_values params_d inp st g = Ok (v, g') ->
  newEmissionsWfh v
  = py_sum [newEmissionsIt v; newEmissionsLight v; newEmissionsHeat v].
Proof.
  intros H. unfold wfh_values in H.
  apply bindM_Ok in H. destruct H as (m & g1 & _ & H).
  apply bindM_Ok in H. destruct H as (months & g2 & _ & H).
  apply bindM_Ok in H. destruct H as (home & g3 & _ & H).
  apply bindM_Ok in H. destruct H as (share & g4 & _ & H).
  apply bindM_Ok in H. destruct H as (perHead & g5 & _ & H).
  unfold ret in H. injection H as <- _. reflexivity.
Qed.

(** X15: after a confirmed run of the WFH fragment the session's WFH
    emissions are the sum of its IT, lighting and heating emissions, and
    its total emissions add the transport emissions the session already
    held. *)
Theorem wfh_confirm_sums (st st' : SessionState) :
  confirms Wfh st st' ->
  num st' sessionEmissionsWfh ==
    num st' sessionEmissionsIt + num st' sessionEmissionsLight
    + num st' sessionEmissionsHeat
  /\ num st' sessionEmissionsTotal =
       num st sessionEmissionsTransport + num st' sessionEmissionsWfh.
Proof.
  intros H. remember Wfh as f eqn:Ef.
  destruct H as [p inp st st' H | p inp st st' H | p inp st g st' g' H];
    try discriminate Ef.
  unfold fn_FormWfh in H. apply bindM_Ok in H.
  destruct H as (v & g1 & Hv & H). unfold ret in H. injection H as <- _.
  apply wfh_values_sum in Hv.
  split; [| reflexivity].
  cbn. rewrite Hv. unfold py_sum. simpl. ring.
Qed.

Lemma wfh_confirm_sums_witness :
  exists st',
    confirms Wfh (fresh_session 100) st'
    /\ num st' sessionEmissionsWfh ==
         num st' sessionEmissionsIt + num st' sessionEmissionsLight
         + num st' sessionEmissionsHeat
    /\ num st' sessionEmissionsTotal =
         num (fresh_session 100) sessionEmissionsTransport
         + num st' sessionEmissionsWfh.
Proof.
  assert (H : exists st' g',
             fn_FormWfh example_params example_wfh_inputs (fresh_session 100)
               true zero_rng = Ok (st', g'))
    by (eexists _, _; vm_compute; reflexivity).
  destruct H as (st' & g' & H). exists st'.
  pose proof (confirm_wfh _ _ _ _ _ _ H) as Hc.
  split; [exact Hc |].
  exact (wfh_confirm_sums (fresh_session 100) st' Hc).
Defined.

(** ** FORM - WFH OPTIONS: the heating group *)

Lemma picks_total {A : Type} (candidates : list A) (dflt : A) :
  forall (size : nat) (g : Rng),
    exists l g', picks candidates dflt size g = Ok (l, g').
Proof.
  induction size as [| size IH]; intros g; simpl.
  - eexists _, _. reflexivity.
  - unfold bindM at 1. unfold draw at 1.
    destruct (IH {| tape := tape g; pos := S (pos g) |}) as (l & g' & E).
    unfold bindM. rewrite E. eexists _, _. reflexivity.
Qed.

Lemma picks_length {A : Type} (candidates : list A) (dflt : A) :
  forall (size : nat) (g g' : Rng) (l : list A),
    picks candidates dflt size g = Ok (l, g') -> length l = size.
Proof.
  induction size as [| size IH]; intros g g' l H; simpl in H.
  - unfold ret in H. injection H as <- _. reflexivity.
  - apply bindM_Ok in H. destruct H as (n & g1 & _ & H).
    apply bindM_Ok in H. destruct H as (rest & g2 & Hrest & H).
    unfold ret in H. injection H as <- _. simpl.
    f_equal. eapply IH. exact Hrest.
Qed.

Lemma rng_choice_length {A : Type} (a : list A) (p : option (list Q))
    (size : Z) (g g' : Rng) (l : list A) :
  rng_choice a p size g = Ok (l, g') -> len l = size.
Proof.
  unfold rng_choice. destruct (size <? 0)%Z eqn:Es; [discriminate |].
  apply Z.ltb_ge in Es.
  assert (Hnil : (if (size =? 0)%Z then @ret (list A) [] else raise ValueError) g
                 = Ok (l, g') -> len l = size).
  { destruct (size =? 0)%Z eqn:E0; [| discriminate].
    apply Z.eqb_eq in E0. unfold ret. intros H. injection H as <- _.
    unfold len. simpl. lia. }
  destruct p as [ps |].
  - destruct (negb (length ps =? length a)%nat
              || existsb (fun x => Qlt_bool x 0) ps
              || negb (Qeq_bool (py_sum ps) 1)); [discriminate |].
    destruct (support a ps) as [| x s].
    + exact Hnil.
    + intros H. apply picks_length in H. unfold len. lia.
  - destruct a as [| x a'].
    + exact Hnil.
    + intros H. apply picks_length in H. unfold len. lia.
Qed.

Lemma zip_mul3_length (a : list Z) :
  forall (b c : list Q) (n : nat),
    length a = n -> length b = n -> length c = n ->
    length (zip_mul3 a b c) = n.
Proof.
  induction a as [| i a IH]; intros [| j b] [| k c] n Ha Hb Hc; simpl in *;
    try congruence.
  destruct n as [| n]; [discriminate |].
  f_equal. apply IH; congruence.
Qed.

Lemma zip_mul3_in_range (a : list Z) :
  forall b c : list Q,
    Forall (fun i => i = 1%Z \/ i = 2%Z) a ->
    Forall (in_range (1 # 4) 1) b ->
    Forall (in_range (1 # 2) 1) c ->
    Forall (in_range (1 # 8) 2) (zip_mul3 a b c).
Proof.
  induction a as [| i a IH]; intros [| j b] [| k c] Ha Hb Hc; simpl;
    try constructor.
  - inversion Ha as [| ? ? Hi _]; inversion Hb as [| ? ? [Hj0 Hj1] _];
      inversion Hc as [| ? ? [Hk0 Hk1] _]; subst.
    assert (Hjk0 : 1 # 8 <= j * k).
    { setoid_replace (1 # 8) with ((1 # 4) * (1 # 2)) by reflexivity.
      apply Qmult_le_compat_nonneg; split; try assumption; lra. }
    assert (Hjk1 : j * k <= 1).
    { setoid_replace 1 with (1 * 1) by reflexivity.
      apply Qmult_le_compat_nonneg; split; try assumption; lra. }
    unfold in_range.
    destruct Hi as [-> | ->].
    + change (inject_Z 1) with 1.
      setoid_replace (1 * j * k) with (j * k) by ring. split; lra.
    + change (inject_Z 2) with 2.
      setoid_replace (2 * j * k) with (2 * (j * k)) by ring. split; lra.
  - inversion Ha; inversion Hb; inversion Hc; subst. apply IH; assumption.
Qed.

(** The heating group of a run that returns. *)
Lemma wfh_values_heatGroup (params_d : Params) (inp : WfhInputs)
    (st : SessionState) (g g' : Rng) (v : WfhValues) :
  wfh_values params_d inp st g = Ok (v, g') ->
  len (heatGroup v) = numNonZeroHeat inp st
  /\ Forall (in_range (1 # 8) 2) (heatGroup v)
  /\ exists perHead,
       py_div (py_sum (heatGroup v)) (inject_Z (int st sessionStaffTotal))
         = Ok perHead
       /\ newEmissionsHeat v =
            perHead * wfhHours st * HeatAllowance params_d
            * HeatConvFactor params_d.
Proof.
  intros H. unfold wfh_values in H.
  apply bindM_Ok in H. destruct H as (m & g1 & _ & H).
  apply bindM_Ok in H. destruct H as (months & g2 & Hmonths & H).
  apply bindM_Ok in H. destruct H as (home & g3 & Hhome & H).
  apply bindM_Ok in H. destruct H as (share & g4 & Hshare & H).
  apply bindM_Ok in H. destruct H as (perHead & g5 & Hper & H).
  unfold ret in H. injection H as <- _. cbn [heatGroup newEmissionsHeat].
  pose proof (rng_choice_length _ _ _ _ _ _ Hmonths) as Lm.
  pose proof (rng_choice_length _ _ _ _ _ _ Hhome) as Lh.
  pose proof (rng_choice_length _ _ _ _ _ _ Hshare) as Ls.
  apply rng_choice_In in Hmonths, Hhome, Hshare.
  split; [| split].
  - unfold len in *.
    rewrite (zip_mul3_length months home share (length months)); try lia.
  - apply zip_mul3_in_range.
    + eapply Forall_impl; [| exact Hmonths].
      intros i Hi. unfold heatMonthsList in Hi.
      apply in_app_or in Hi. destruct Hi as [Hi | Hi];
        apply copies_In in Hi; [left | right]; exact Hi.
    + eapply Forall_impl; [| exact Hhome].
      intros j Hj. simpl in Hj. unfold in_range.
      destruct Hj as [<- | [<- | [<- | []]]]; split; lra.
    + eapply Forall_impl; [| exact Hshare].
      intros k Hk. simpl in Hk. unfold in_range.
      destruct Hk as [<- | [<- | []]]; split; lra.
  - exists perHead. split; [| reflexivity].
    unfold lift in Hper.
    destruct (py_div _ _) as [q |]; [| discriminate].
    injection Hper as -> _. reflexivity.
Qed.

(** X16: when the WFH fragment returns on a non-negative headcount and a
    heating-months slider within 0..100, the size of its heating group is
    the share [headcount * (1 - min(sliderHeatMonths)/100)] of the staff
    who heat at all, cut down to a whole number: it does not exceed the
    share and falls short of it by at most one member.  (Where the share
    is a whole number the double-precision product of the source can lie
    just under it, and the truncation then gives one member less than the
    share; the bounds cover both outcomes.)  Every member's scalar lies
    between 1/8 and 2. *)
Theorem wfh_heating_group (params_d : Params) (inp : WfhInputs)
    (st : SessionState) (g g' : Rng) (v : WfhValues) :
  (0 <= int st sessionStaffTotal)%Z ->
  (0 <= tmin (sliderHeatMonths inp) <= 100)%Z ->
  wfh_values params_d inp st g = Ok (v, g') ->
  inject_Z (len (heatGroup v))
    <= inject_Z (int st sessionStaffTotal)
       * (1 - inject_Z (tmin (sliderHeatMonths inp)) / 100)
  /\ inject_Z (int st sessionStaffTotal)
       * (1 - inject_Z (tmin (sliderHeatMonths inp)) / 100) - 1
     <= inject_Z (len (heatGroup v))
  /\ Forall (in_range (1 # 8) 2) (heatGroup v).
Proof.
  intros HN Hm H. apply wfh_values_heatGroup in H.
  destruct H as (Hlen & Hrange & _).
  rewrite Hlen. unfold numNonZeroHeat.
  destruct (percent_bounds _ Hm) as [H0 H1].
  set (x := inject_Z (int st sessionStaffTotal)
            * (1 - inject_Z (tmin (sliderHeatMonths inp)) / 100)).
  assert (Hx0 : 0 <= x).
  { apply Qmult_le_0_compat; [| lra].
    change 0 with (inject_Z 0). rewrite <- Zle_Qle. exact HN. }
  rewrite (py_int_nonneg _ Hx0).
  pose proof (Qfloor_le x) as Hlo.
  pose proof (Qlt_floor x) as Hhi.
  rewrite inject_Z_plus in Hhi. change (inject_Z 1) with 1 in Hhi.
  split; [exact Hlo |]. split; [lra | exact Hrange].
Qed.

Lemma wfh_heating_group_witness :
  exists v g',
    wfh_values example_params example_wfh_inputs (fresh_session 100) zero_rng
      = Ok (v, g')
    /\ inject_Z (len (heatGroup v)) <= 100 * (1 - 30 / 100)
    /\ 100 * (1 - 30 / 100) - 1 <= inject_Z (len (heatGroup v))
    /\ Forall (in_range (1 # 8) 2) (heatGroup v).
Proof.
  assert (H : exists v g',
             wfh_values example_params example_wfh_inputs (fresh_session 100)
               zero_rng = Ok (v, g'))
    by (eexists _, _; vm_compute; reflexivity).
  destruct H as (v & g' & H). exists v, g'. split; [exact H |].
  apply (wfh_heating_group example_params example_wfh_inputs
           (fresh_session 100) zero_rng g' v); [| | exact H].
  - simpl. lia.
  - unfold tmin. simpl. lia.
Defined.

Lemma numNonZeroHeat_le (inp : WfhInputs) (st : SessionState) :
  (0 <= int st sessionStaffTotal)%Z ->
  (0 <= tmin (sliderHeatMonths inp) <= 100)%Z ->
  (numNonZeroHeat inp st <= int st sessionStaffTotal)%Z.
Proof.
  intros HN Hm. unfold numNonZeroHeat.
  set (N := int st sessionStaffTotal) in *.
  set (m := tmin (sliderHeatMonths inp)) in *.
  destruct (percent_bounds m Hm) as [H0 H1].
  assert (HNq : 0 <= inject_Z N).
  { change 0 with (inject_Z 0). rewrite <- Zle_Qle. exact HN. }
  assert (Hx0 : 0 <= inject_Z N * (1 - inject_Z m / 100)).
  { apply Qmult_le_0_compat; [exact HNq | lra]. }
  assert (Hx1 : inject_Z N * (1 - inject_Z m / 100) <= inject_Z N).
  { setoid_replace (inject_Z N) with (inject_Z N * 1) at 2 by ring.
    rewrite !(Qmult_comm (inject_Z N)).
    apply Qmult_le_compat_r; [lra | exact HNq]. }
  rewrite (py_int_nonneg _ Hx0).
  apply Z.le_trans with (Qfloor (inject_Z N)).
  - apply Qfloor_resp_le. exact Hx1.
  - rewrite Qfloor_Z. lia.
Qed.

(** X17: on a session with a non-negative headcount and WFH hours, and
    with non-negative heating constants, the heating emissions of a run
    that returns are at most twice WFH hours * [HeatAllowance] *
    [HeatConvFactor]: the per-head scalar never exceeds 2. *)
Theorem wfh_heat_upper_bound (params_d : Params) (inp : WfhInputs)
    (st : SessionState) (g g' : Rng) (v : WfhValues) :
  (0 <= int st sessionStaffTotal)%Z ->
  (0 <= tmin (sliderHeatMonths inp) <= 100)%Z ->
  0 <= wfhHours st ->
  0 <= HeatAllowance params_d ->
  0 <= HeatConvFactor params_d ->
  wfh_values params_d inp st g = Ok (v, g') ->
  newEmissionsHeat v
  <= 2 * wfhHours st * HeatAllowance params_d * HeatConvFactor params_d.
Proof.
  intros HN Hm Hw Hha Hhc H.
  apply wfh_values_heatGroup in H.
  destruct H as (Hlen & Hrange & perHead & Hper & ->).
  pose proof (numNonZeroHeat_le inp st HN Hm) as Hn.
  unfold py_div in Hper.
  destruct (Qeq_bool (inject_Z (int st sessionStaffTotal)) 0) eqn:E;
    [discriminate |].
  injection Hper as <-.
  assert (HNpos : 0 < inject_Z (int st sessionStaffTotal)).
  { assert (HN0 : int st sessionStaffTotal <> 0%Z).
    { intros H0. rewrite H0 in E. discriminate E. }
    change 0 with (inject_Z 0). rewrite <- Zlt_Qlt. lia. }
  assert (Hsum : py_sum (heatGroup v) <= inject_Z (len (heatGroup v)) * 2).
  { apply py_sum_upper. eapply Forall_impl; [| exact Hrange].
    intros x [_ Hx]. exact Hx. }
  assert (Hper : py_sum (heatGroup v) / inject_Z (int st sessionStaffTotal) <= 2).
  { apply Qle_shift_div_r; [exact HNpos |].
    rewrite Hlen in Hsum.
    assert (inject_Z (numNonZeroHeat inp st)
            <= inject_Z (int st sessionStaffTotal))
      by (rewrite <- Zle_Qle; exact Hn).
    lra. }
  apply Qmult_le_compat_r; [| exact Hhc].
  apply Qmult_le_compat_r; [| exact Hha].
  apply Qmult_le_compat_r; [exact Hper | exact Hw].
Qed.

Lemma wfh_heat_upper_bound_witness :
  exists v g',
    wfh_values example_params example_wfh_inputs (fresh_session 100) zero_rng
      = Ok (v, g')
    /\ newEmissionsHeat v
       <= 2 * wfhHours (fresh_session 100) * 1 * 180.
Proof.
  assert (H : exists v g',
             wfh_values example_params example_wfh_inputs (fresh_session 100)
               zero_rng = Ok (v, g'))
    by (eexists _, _; vm_compute; reflexivity).
  destruct H as (v & g' & H). exists v, g'. split; [exact H |].
  apply (wfh_heat_upper_bound example_params example_wfh_inputs
           (fresh_session 100) zero_rng g' v); try exact H;
    unfold tmin; simpl; try (unfold Qle; simpl); lia.
Defined.

(** ** FORM - WFH OPTIONS: when the fragment returns *)

Lemma monitor_high (n : Z) :
  (0 <= n < 50)%Z -> (1 < py_int (100 / inject_Z (n + 1)))%Z.
Proof.
  intros Hn. remember (n + 1)%Z as k eqn:Ek.
  destruct k as [| p | p]; try lia.
  unfold py_int, Qdiv, Qinv, Qmult, inject_Z. simpl.
  rewrite Z.quot_div_nonneg by lia.
  apply Z.lt_le_trans with 2%Z; [lia |].
  apply Z.div_le_lower_bound; lia.
Qed.

Lemma monitor_loop_total (params_d : Params) (inp : WfhInputs)
    (st : SessionState) :
  (len (optionsMonitor inp) < 50)%Z ->
  forall (options : list string) (acc : Q) (g : Rng),
    (forall o, In o options ->
               exists w, dict_get (ScreenOptions params_d) o = Ok w) ->
    exists m g', monitor_loop params_d inp st options acc g = Ok (m, g').
Proof.
  intros Hlen.
  assert (Hhigh : (1 < py_int (100 / inject_Z (len (optionsMonitor inp) + 1)))%Z).
  { apply monitor_high. unfold len in *. lia. }
  induction options as [| o rest IH]; intros acc g Hkeys; simpl.
  - eexists _, _. reflexivity.
  - unfold bindM at 1. unfold rng_integers.
    destruct (py_int (100 / inject_Z (len (optionsMonitor inp) + 1)) <=? 1)%Z
      eqn:E; [apply Z.leb_le in E; lia |].
    unfold bindM at 1. unfold draw at 1. unfold ret at 1.
    destruct (Hkeys o (or_introl eq_refl)) as [w Hw].
    unfold bindM at 1. rewrite Hw. unfold lift.
    apply IH. intros o' Ho'. apply Hkeys. right. exact Ho'.
Qed.

Lemma rng_choice_none_total {A : Type} (a : list A) (size : Z) (g : Rng) :
  (0 <= size)%Z ->
  (a = [] -> size = 0%Z) ->
  exists l g', rng_choice a None size g = Ok (l, g').
Proof.
  intros Hs Ha. unfold rng_choice.
  destruct (size <? 0)%Z eqn:E; [apply Z.ltb_lt in E; lia |].
  destruct a as [| x a'].
  - rewrite (Ha eq_refl). eexists _, _. reflexivity.
  - apply picks_total.
Qed.

Lemma support_nil {A : Type} (a : list A) :
  forall p : list Q,
    length p = length a -> support a p = [] -> Forall (fun x => x <= 0) p.
Proof.
  induction a as [| y a IH]; intros [| px p] Hlen H; simpl in *;
    try discriminate; try constructor.
  - unfold Qlt_bool in H.
    destruct (Qle_bool px 0) eqn:E; [| discriminate H].
    apply Qle_bool_iff. exact E.
  - apply IH; [lia |].
    destruct (Qlt_bool 0 px); [discriminate H | exact H].
Qed.

Lemma rng_choice_p_total {A : Type} (a : list A) (ps : list Q) (size : Z)
    (g : Rng) :
  length ps = length a ->
  Forall (Qle 0) ps ->
  py_sum ps == 1 ->
  (0 <= size)%Z ->
  exists l g', rng_choice a (Some ps) size g = Ok (l, g').
Proof.
  intros Hlen Hpos Hsum Hs. unfold rng_choice.
  destruct (size <? 0)%Z eqn:E; [apply Z.ltb_lt in E; lia |].
  assert (E1 : (length ps =? length a)%nat = true) by (apply Nat.eqb_eq; exact Hlen).
  assert (E2 : existsb (fun x => Qlt_bool x 0) ps = false).
  { destruct (existsb _ ps) eqn:Ex; [| reflexivity].
    apply existsb_exists in Ex. destruct Ex as (x & Hx & Hneg).
    rewrite Forall_forall in Hpos. apply Hpos in Hx.
    unfold Qlt_bool in Hneg. apply Qle_bool_iff in Hx. rewrite Hx in Hneg.
    discriminate Hneg. }
  assert (E3 : Qeq_bool (py_sum ps) 1 = true) by (apply Qeq_bool_iff; exact Hsum).
  rewrite E1, E2, E3. simpl.
  destruct (support a ps) as [| x s] eqn:Es.
  - exfalso. apply support_nil in Es; [| exact Hlen].
    pose proof (py_sum_upper 0 ps Es) as Hu. lra.
  - apply picks_total.
Qed.

Lemma percent_triple_sum (a b : Z) :
  py_sum [ inject_Z a / 100; inject_Z (b - a) / 100; inject_Z (100 - b) / 100 ]
  == 1.
Proof.
  unfold py_sum. cbn [fold_left].
  unfold Z.sub. rewrite !inject_Z_plus, !inject_Z_opp.
  change (inject_Z 100) with 100. field.
Qed.

Lemma percent_pair_sum (s : Z) :
  py_sum [ inject_Z s / 100; inject_Z (100 - s) / 100 ] == 1.
Proof.
  unfold py_sum. cbn [fold_left].
  unfold Z.sub. rewrite !inject_Z_plus, !inject_Z_opp.
  change (inject_Z 100) with 100. field.
Qed.

Lemma numNonZeroHeat_nonneg (inp : WfhInputs) (st : SessionState) :
  (0 <= int st sessionStaffTotal)%Z ->
  (0 <= tmin (sliderHeatMonths inp) <= 100)%Z ->
  (0 <= numNonZeroHeat inp st)%Z.
Proof.
  intros HN Hm. unfold numNonZeroHeat.
  destruct (percent_bounds _ Hm) as [H0 H1].
  assert (Hx0 : 0 <= inject_Z (int st sessionStaffTotal)
                     * (1 - inject_Z (tmin (sliderHeatMonths inp)) / 100)).
  { apply Qmult_le_0_compat; [| lra].
    change 0 with (inject_Z 0). rewrite <- Zle_Qle. exact HN. }
  rewrite (py_int_nonneg _ Hx0).
  rewrite <- (Qfloor_Z 0). apply Qfloor_resp_le. exact Hx0.
Qed.

Lemma heatMonthsList_nil (inp : WfhInputs) (st : SessionState) :
  (0 <= int st sessionStaffTotal)%Z ->
  (0 <= tmin (sliderHeatMonths inp))%Z ->
  (tmax (sliderHeatMonths inp) <= 100)%Z ->
  heatMonthsList inp = [] ->
  numNonZeroHeat inp st = 0%Z.
Proof.
  intros HN H0 H100 Hnil.
  pose proof (tmin_le_tmax (sliderHeatMonths inp)) as Hmm.
  unfold heatMonthsList, copies in Hnil.
  apply app_eq_nil in Hnil. destruct Hnil as [Ha Hb].
  apply (f_equal (@length Z)) in Ha, Hb.
  rewrite repeat_length in Ha, Hb. cbn [length] in Ha, Hb.
  assert (Hm : tmin (sliderHeatMonths inp) = 100%Z) by lia.
  unfold numNonZeroHeat. rewrite Hm.
  assert (Hx : inject_Z (int st sessionStaffTotal) * (1 - inject_Z 100 / 100)
               == 0) by (change (inject_Z 100) with 100; field).
  assert (Hx0 : 0 <= inject_Z (int st sessionStaffTotal)
                     * (1 - inject_Z 100 / 100)) by (rewrite Hx; apply Qle_refl).
  rewrite (py_int_nonneg _ Hx0). rewrite Hx. reflexivity.
Qed.

(** X18: on a session with a headcount of at least 1, with fewer than
    50 monitor options selected, all of them keys of [ScreenOptions], and
    with the three heating sliders within 0..100, the WFH fragment
    returns for every state of the generator: none of its draws and none
    of its divisions raises. *)
Theorem wfh_returns (params_d : Params) (inp : WfhInputs) (st : SessionState)
    (g : Rng) :
  (1 <= int st sessionStaffTotal)%Z ->
  (len (optionsMonitor inp) < 50)%Z ->
  (forall o, In o (optionsMonitor inp) ->
             exists w, dict_get (ScreenOptions params_d) o = Ok w) ->
  (0 <= tmin (sliderHeatMonths inp))%Z ->
  (tmax (sliderHeatMonths inp) <= 100)%Z ->
  (0 <= tmin (sliderHeatHome inp))%Z ->
  (tmax (sliderHeatHome inp) <= 100)%Z ->
  (0 <= sliderHeatSharing inp <= 100)%Z ->
  exists v g', wfh_values params_d inp st g = Ok (v, g').
Proof.
  intros HN Hopts Hkeys Hm0 Hm1 Hh0 Hh1 Hs.
  pose proof (tmin_le_tmax (sliderHeatMonths inp)) as Hmm.
  pose proof (tmin_le_tmax (sliderHeatHome inp)) as Hhh.
  assert (Hn : (0 <= numNonZeroHeat inp st)%Z)
    by (apply numNonZeroHeat_nonneg; lia).
  unfold wfh_values.
  destruct (monitor_loop_total params_d inp st Hopts (optionsMonitor inp) 0 g Hkeys)
    as (m & g1 & Em).
  unfold bindM at 1. rewrite Em.
  destruct (rng_choice_none_total (heatMonthsList inp) (numNonZeroHeat inp st) g1 Hn)
    as (months & g2 & Emonths).
  { apply heatMonthsList_nil; lia. }
  unfold bindM at 1. rewrite Emonths.
  destruct (rng_choice_p_total [1 # 4; 1 # 2; 1]
              [ inject_Z (tmin (sliderHeatHome inp)) / 100;
                inject_Z (tmax (sliderHeatHome inp) - tmin (sliderHeatHome inp)) / 100;
                inject_Z (100 - tmax (sliderHeatHome inp)) / 100 ]
              (numNonZeroHeat inp st) g2) as (home & g3 & Ehome);
    [reflexivity | | apply percent_triple_sum | exact Hn |].
  { repeat constructor; apply percent_bounds; lia. }
  unfold bindM at 1. rewrite Ehome.
  destruct (rng_choice_p_total [1 # 2; 1]
              [ inject_Z (sliderHeatSharing inp) / 100;
                inject_Z (100 - sliderHeatSharing inp) / 100 ]
              (numNonZeroHeat inp st) g3) as (share & g4 & Eshare);
    [reflexivity | | apply percent_pair_sum | exact Hn |].
  { repeat constructor; apply percent_bounds; lia. }
  unfold bindM at 1. rewrite Eshare.
  unfold bindM, lift. rewrite py_div_Ok.
  - eexists _, _. reflexivity.
  - intros H. unfold Qeq in H. simpl in H. lia.
Qed.

Lemma wfh_returns_witness :
  exists v g',
    wfh_values example_params example_wfh_inputs (fresh_session 100) zero_rng
      = Ok (v, g').
Proof.
  apply (wfh_returns example_params example_wfh_inputs (fresh_session 100)
           zero_rng); unfold tmin, tmax; try (simpl; lia).
  - reflexivity.
  - intros o [<- | []]. eexists. reflexivity.
Defined.

(** ** FORM - WFH OPTIONS: the monitor options *)

Lemma rng_integers_lt (low high : Z) (g g' : Rng) (n : Z) :
  rng_integers low high g = Ok (n, g') -> (n < high)%Z.
Proof.
  unfold rng_integers. destruct (high <=? low)%Z eqn:E; [discriminate |].
  apply Z.leb_gt in E. unfold bindM, draw, ret. intros H.
  injection H as <- _.
  pose proof (Z.mod_pos_bound (Z.of_nat (tape g (pos g))) (high - low)).
  lia.
Qed.

Lemma monitor_loop_upper (params_d : Params) (inp : WfhInputs)
    (st : SessionState) (F : Q) :
  0 <= wfhHours st ->
  (forall k w, In (k, w) (ScreenOptions params_d) -> 0 <= w /\ w <= F) ->
  forall (options : list string) (acc : Q) (g g' : Rng) (m : Q),
    monitor_loop params_d inp st options acc g = Ok (m, g') ->
    m <= acc
         + inject_Z (len options)
           * (wfhHours st
              * (inject_Z (py_int (100 / inject_Z (len (optionsMonitor inp) + 1)))
                 / 100)
              * F).
Proof.
  intros Hw Hscreen.
  set (high := py_int (100 / inject_Z (len (optionsMonitor inp) + 1))).
  induction options as [| o rest IH]; intros acc g g' m H; simpl in H.
  - unfold ret in H. injection H as <- _. unfold len. simpl.
    change (inject_Z 0) with 0. lra.
  - apply bindM_Ok in H. destruct H as (opt & g1 & Hopt & H).
    apply bindM_Ok in H. destruct H as (factor & g2 & Hf & H).
    fold high in Hopt.
    pose proof (rng_integers_ge _ _ _ _ _ Hopt) as Hge.
    pose proof (rng_integers_lt _ _ _ _ _ Hopt) as Hlt.
    unfold lift in Hf.
    destruct (dict_get (ScreenOptions params_d) o) as [w |] eqn:Ed;
      [| discriminate].
    injection Hf as -> _.
    destruct (dict_get_In _ _ _ Ed) as [k Hk]. apply Hscreen in Hk.
    destruct Hk as [Hf0 Hf1].
    apply IH in H.
    assert (Ho0 : 0 <= inject_Z opt / 100).
    { unfold Qdiv, Qinv, Qmult, Qle, inject_Z; simpl. lia. }
    assert (Ho1 : inject_Z opt / 100 <= inject_Z high / 100).
    { unfold Qdiv, Qinv, Qmult, Qle, inject_Z; simpl. lia. }
    assert (Hstep : wfhHours st * (inject_Z opt / 100) * factor
                    <= wfhHours st * (inject_Z high / 100) * F).
    { apply Qmult_le_compat_nonneg; split; try assumption.
      - apply Qmult_le_0_compat; assumption.
      - rewrite !(Qmult_comm (wfhHours st)).
        apply Qmult_le_compat_r; assumption. }
    unfold len in *. simpl length. rewrite Nat2Z.inj_succ.
    unfold Z.succ. rewrite inject_Z_plus. change (inject_Z 1) with 1.
    set (n := inject_Z (Z.of_nat (length rest))) in *.
    set (X := wfhHours st * (inject_Z high / 100) * F) in *.
    set (Y := wfhHours st * (inject_Z opt / 100) * factor) in *.
    lra.
Qed.

Lemma monitor_share (n : Z) :
  (0 <= n)%Z ->
  (0 <= py_int (100 / inject_Z (n + 1))
   /\ n * py_int (100 / inject_Z (n + 1)) <= 100)%Z.
Proof.
  intros Hn. remember (n + 1)%Z as k eqn:Ek.
  destruct k as [| p | p]; try lia.
  unfold py_int, Qdiv, Qinv, Qmult, inject_Z. simpl.
  rewrite Z.quot_div_nonneg by lia.
  pose proof (Z.mul_div_le 100 (Z.pos p) ltac:(lia)) as Hd.
  assert (H0 : (0 <= 100 / Z.pos p)%Z) by (apply Z.div_pos; lia).
  split; [exact H0 | nia].
Qed.

(** X19: when the fragment returns on a session whose WFH hours are not
    negative, the monitor options together add at most WFH hours times
    the largest screen factor to the IT usage: their drawn shares of the
    time sum to at most 100%, so the IT emissions are at most
    (computers + phones + WFH hours * largest factor) *
    [ElectricConvFactor]. *)
Theorem wfh_monitor_bound (params_d : Params) (inp : WfhInputs)
    (st : SessionState) (F : Q) (g g' : Rng) (v : WfhValues) :
  0 <= wfhHours st ->
  0 <= ElectricConvFactor params_d ->
  0 <= F ->
  (forall k w, In (k, w) (ScreenOptions params_d) -> 0 <= w /\ w <= F) ->
  wfh_values params_d inp st g = Ok (v, g') ->
  newEmissionsIt v
  <= (computerGroupRaw params_d inp st + phoneGroupRaw params_d inp st
      + wfhHours st * F) * ElectricConvFactor params_d.
Proof.
  intros Hw He HF Hscreen H.
  unfold wfh_values in H.
  apply bindM_Ok in H. destruct H as (m & g1 & Hm & H).
  apply bindM_Ok in H. destruct H as (months & g2 & _ & H).
  apply bindM_Ok in H. destruct H as (home & g3 & _ & H).
  apply bindM_Ok in H. destruct H as (share & g4 & _ & H).
  apply bindM_Ok in H. destruct H as (perHead & g5 & _ & H).
  unfold ret in H. injection H as <- _. cbn [newEmissionsIt].
  apply Qmult_le_compat_r; [| exact He].
  unfold py_sum. cbn [fold_left].
  assert (Hbound : m <= wfhHours st * F).
  { apply (monitor_loop_upper params_d inp st F Hw Hscreen) in Hm.
    set (N := len (optionsMonitor inp)) in *.
    assert (HN : (0 <= N)%Z) by (unfold N, len; lia).
    destruct (monitor_share N HN) as [Hh0 Hh1].
    set (high := py_int (100 / inject_Z (N + 1))) in *.
    assert (Hc0 : 0 <= inject_Z N * (inject_Z high / 100)).
    { apply Qmult_le_0_compat.
      - change 0 with (inject_Z 0). rewrite <- Zle_Qle. exact HN.
      - unfold Qdiv, Qinv, Qmult, Qle, inject_Z; simpl. lia. }
    assert (Hc1 : inject_Z N * (inject_Z high / 100) <= 1).
    { setoid_replace (inject_Z N * (inject_Z high / 100))
        with (inject_Z (N * high) / 100)
        by (rewrite inject_Z_mult; field).
      apply Qle_shift_div_r; [reflexivity |].
      change (1 * 100) with (inject_Z 100). rewrite <- Zle_Qle. exact Hh1. }
    assert (HwF : 0 <= wfhHours st * F) by (apply Qmult_le_0_compat; assumption).
    setoid_replace (0 + inject_Z N * (wfhHours st * (inject_Z high / 100) * F))
      with (wfhHours st * F * (inject_Z N * (inject_Z high / 100))) in Hm
      by ring.
    apply Qle_trans with (wfhHours st * F * (inject_Z N * (inject_Z high / 100)));
      [exact Hm |].
    setoid_replace (wfhHours st * F) with (wfhHours st * F * 1) at 2 by ring.
    rewrite !(Qmult_comm (wfhHours st * F)).
    apply Qmult_le_compat_r; assumption. }
  lra.
Qed.

Lemma wfh_monitor_bound_witness :
  exists v g',
    wfh_values example_params example_wfh_inputs (fresh_session 100) zero_rng
      = Ok (v, g')
    /\ newEmissionsIt v
       <= (computerGroupRaw example_params example_wfh_inputs (fresh_session 100)
           + phoneGroupRaw example_params example_wfh_inputs (fresh_session 100)
           + wfhHours (fresh_session 100) * (6 # 100)) * 200.
Proof.
  assert (H : exists v g',
             wfh_values example_params example_wfh_inputs (fresh_session 100)
               zero_rng = Ok (v, g'))
    by (eexists _, _; vm_compute; reflexivity).
  destruct H as (v & g' & H). exists v, g'. split; [exact H |].
  apply (wfh_monitor_bound example_params example_wfh_inputs
           (fresh_session 100) (6 # 100) zero_rng g' v); try exact H;
    try (unfold Qle; simpl; lia).
  intros k w [E | [E | []]]; injection E as _ <-; unfold Qle; simpl; lia.
Defined.

(** X20: with 50 or more monitor options selected the fragment raises
    [ValueError] on its first draw, whatever the generator: the upper
    bound int(100 / (number of options + 1)) of the draw is then 1, its
    lower bound. *)
Theorem wfh_too_many_monitors (params_d : Params) (inp : WfhInputs)
    (st : SessionState) (g : Rng) :
  (50 <= len (optionsMonitor inp))%Z ->
  wfh_values params_d inp st g = Raise ValueError.
Proof.
  intros Hlen. unfold wfh_values.
  assert (Hhigh : (py_int (100 / inject_Z (len (optionsMonitor inp) + 1)) <= 1)%Z).
  { remember (len (optionsMonitor inp) + 1)%Z as k eqn:Ek.
    destruct k as [| p | p]; try lia.
    unfold py_int, Qdiv, Qinv, Qmult, inject_Z. simpl.
    rewrite Z.quot_div_nonneg by lia.
    assert (100 / Z.pos p < 2)%Z by (apply Z.div_lt_upper_bound; lia).
    lia. }
  destruct (optionsMonitor inp) as [| o rest] eqn:Eo.
  - unfold len in Hlen. simpl in Hlen. lia.
  - unfold bindM at 1. cbn [monitor_loop].
    unfold bindM at 1. unfold rng_integers.
    rewrite ?Eo.
    apply Z.leb_le in Hhigh. rewrite Hhigh. reflexivity.
Qed.

Lemma wfh_too_many_monitors_witness :
  wfh_values example_params many_monitor_inputs (fresh_session 100) zero_rng
  = Raise ValueError.
Proof.
  apply (wfh_too_many_monitors example_params many_monitor_inputs
           (fresh_session 100) zero_rng).
  vm_compute. discriminate.
Defined.

Lemma monitor_loop_no_hours (params_d : Params) (inp : WfhInputs)
    (st : SessionState) :
  wfhHours st == 0 ->
  forall (options : list string) (acc : Q) (g g' : Rng) (m : Q),
    monitor_loop params_d inp st options acc g = Ok (m, g') ->
    m == acc.
Proof.
  intros Hw.
  induction options as [| o rest IH]; intros acc g g' m H; simpl in H.
  - unfold ret in H. injection H as <- _. reflexivity.
  - apply bindM_Ok in H. destruct H as (opt & g1 & _ & H).
    apply bindM_Ok in H. destruct H as (factor & g2 & _ & H).
    apply IH in H. rewrite H, Hw. ring.
Qed.

(** X21: on a session without WFH hours (an office attendance rate of 1,
    or no staff hours) a run that returns gives lighting and heating
    emissions of 0, while the IT emissions keep the phones' share,
    [ItOptions['mobile phone']] * number of phones *
    [ElectricConvFactor], which does not scale with the hours.  The
    number of phones is the share [headcount * sliderPhone] of the staff
    cut down to a whole number: it does not exceed the share and falls
    short of it by at most one.  (Where the share is a whole number the
    double-precision product of the source can lie just under it, and
    the floor then gives one phone less than the share; the bounds cover
    both outcomes.) *)
Theorem wfh_no_hours (params_d : Params) (inp : WfhInputs)
    (st : SessionState) (g g' : Rng) (v : WfhValues) :
  wfhHours st == 0 ->
  wfh_values params_d inp st g = Ok (v, g') ->
  newEmissionsLight v == 0
  /\ newEmissionsHeat v == 0
  /\ exists phones : Z,
       inject_Z phones
         <= inject_Z (int st sessionStaffTotal)
            * (inject_Z (sliderPhonePct inp) / 100)
       /\ inject_Z (int st sessionStaffTotal)
            * (inject_Z (sliderPhonePct inp) / 100) - 1
          <= inject_Z phones
       /\ newEmissionsIt v ==
            ItOptions_mobile_phone params_d * inject_Z phones
            * ElectricConvFactor params_d.
Proof.
  intros Hw H.
  unfold wfh_values in H.
  apply bindM_Ok in H. destruct H as (m & g1 & Hm & H).
  apply bindM_Ok in H. destruct H as (months & g2 & _ & H).
  apply bindM_Ok in H. destruct H as (home & g3 & _ & H).
  apply bindM_Ok in H. destruct H as (share & g4 & _ & H).
  apply bindM_Ok in H. destruct H as (perHead & g5 & _ & H).
  unfold ret in H. injection H as <- _.
  cbn [newEmissionsLight newEmissionsHeat newEmissionsIt].
  apply (monitor_loop_no_hours params_d inp st Hw) in Hm.
  split; [rewrite Hw; ring |]. split; [rewrite Hw; ring |].
  exists (numPhone inp st).
  assert (Hfloor : inject_Z (numPhone inp st)
                   <= inject_Z (int st sessionStaffTotal)
                      * (inject_Z (sliderPhonePct inp) / 100)
                   /\ inject_Z (int st sessionStaffTotal)
                        * (inject_Z (sliderPhonePct inp) / 100) - 1
                      <= inject_Z (numPhone inp st)).
  { unfold numPhone, np_floor, sliderPhone.
    set (x := inject_Z (int st sessionStaffTotal)
              * (inject_Z (sliderPhonePct inp) / 100)).
    pose proof (Qfloor_le x) as Hlo.
    pose proof (Qlt_floor x) as Hhi.
    rewrite inject_Z_plus in Hhi. change (inject_Z 1) with 1 in Hhi.
    split; lra. }
  destruct Hfloor as [Hlo Hhi].
  split; [exact Hlo |]. split; [exact Hhi |].
  unfold py_sum. cbn [fold_left].
  unfold computerGroupRaw, phoneGroupRaw. rewrite Hm, Hw. ring.
Qed.

Lemma wfh_no_hours_witness :
  exists v g',
    wfh_values example_params example_wfh_inputs (office_only_session 100)
      zero_rng = Ok (v, g')
    /\ newEmissionsLight v == 0
    /\ newEmissionsHeat v == 0
    /\ exists phones : Z,
         inject_Z phones <= 100 * (50 / 100)
         /\ 100 * (50 / 100) - 1 <= inject_Z phones
         /\ newEmissionsIt v == 1 * inject_Z phones * 200.
Proof.
  assert (H : exists v g',
             wfh_values example_params example_wfh_inputs
               (office_only_session 100) zero_rng = Ok (v, g'))
    by (eexists _, _; vm_compute; reflexivity).
  destruct H as (v & g' & H). exists v, g'. split; [exact H |].
  apply (wfh_no_hours example_params example_wfh_inputs
           (office_only_session 100) zero_rng g' v); [| exact H].
  vm_compute. reflexivity.
Defined.

(** ** Start-up of the session *)

Lemma extends_refl (s : RawSession) : extends s s.
Proof. repeat split; auto. Qed.

Lemma extends_trans (s1 s2 s3 : RawSession) :
  extends s1 s2 -> extends s2 s3 -> extends s1 s3.
Proof.
  intros (A1 & B1 & C1) (A2 & B2 & C2). repeat split; auto.
Qed.

Lemma raw_set_num_extends (k : numkey) (v : Q) (s : RawSession) :
  raw_num s k = None -> extends s (raw_set_num k v s).
Proof.
  intros Hk. repeat split; auto.
  intros k' v' H. simpl.
  destruct (numkey_beq k k') eqn:E; [| exact H].
  apply internal_numkey_dec_bl in E. subst k'. congruence.
Qed.

Lemma raw_set_int_extends (k : intkey) (v : Z) (s : RawSession) :
  raw_int s k = None -> extends s (raw_set_int k v s).
Proof.
  intros Hk. repeat split; auto.
  intros k' v' H. simpl.
  destruct (intkey_beq k k') eqn:E; [| exact H].
  apply internal_intkey_dec_bl in E. subst k'. congruence.
Qed.

Lemma set_default_extends (s : RawSession) (entry : commit) :
  extends s (set_default s entry).
Proof.
  destruct entry as [k v | k v]; simpl.
  - destruct (raw_num s k) eqn:E;
      [apply extends_refl | apply raw_set_num_extends; exact E].
  - destruct (raw_int s k) eqn:E;
      [apply extends_refl | apply raw_set_int_extends; exact E].
Qed.

Lemma fold_set_default_extends (defaults : list commit) :
  forall s, extends s (fold_left set_default defaults s).
Proof.
  induction defaults as [| d defaults IH]; intros s; simpl.
  - apply extends_refl.
  - eapply extends_trans; [apply set_default_extends | apply IH].
Qed.

Lemma set_default_num_extends (k : numkey) (value : RawSession -> result Q)
    (s s' : RawSession) :
  set_default_num k value s = Ok s' ->
  extends s s' /\ raw_num s' k <> None.
Proof.
  unfold set_default_num. destruct (raw_num s k) as [v |] eqn:E.
  - intros H. injection H as <-. split; [apply extends_refl | congruence].
  - intros H. apply bind_Ok in H. destruct H as (v & _ & H).
    injection H as <-. split; [apply raw_set_num_extends; exact E |].
    simpl. rewrite (internal_numkey_dec_lb k k eq_refl). discriminate.
Qed.

Lemma set_default_num_present (k : numkey) (value : RawSession -> result Q)
    (s : RawSession) :
  raw_num s k <> None -> set_default_num k value s = Ok s.
Proof.
  unfold set_default_num. destruct (raw_num s k); [reflexivity | congruence].
Qed.

Lemma entry_present_extends (s s' : RawSession) (entry : commit) :
  extends s s' -> entry_present s entry -> entry_present s' entry.
Proof.
  intros (A & B & _). destruct entry as [k v | k v]; simpl.
  - destruct (raw_num s k) as [w |] eqn:E; [| congruence].
    intros _. rewrite (A k w E). discriminate.
  - destruct (raw_int s k) as [w |] eqn:E; [| congruence].
    intros _. rewrite (B k w E). discriminate.
Qed.

Lemma set_default_present (s : RawSession) (entry : commit) :
  entry_present (set_default s entry) entry.
Proof.
  destruct entry as [k v | k v]; simpl.
  - destruct (raw_num s k) eqn:E; simpl; [congruence |].
    rewrite (internal_numkey_dec_lb k k eq_refl). discriminate.
  - destruct (raw_int s k) eqn:E; simpl; [congruence |].
    rewrite (internal_intkey_dec_lb k k eq_refl). discriminate.
Qed.

Lemma fold_set_default_present (defaults : list commit) :
  forall s, Forall (entry_present (fold_left set_default defaults s)) defaults.
Proof.
  induction defaults as [| d defaults IH]; intros s; simpl.
  - constructor.
  - constructor; [| apply IH].
    eapply entry_present_extends;
      [apply fold_set_default_extends | apply set_default_present].
Qed.

Lemma fold_set_default_fixed (defaults : list commit) :
  forall s,
    Forall (entry_present s) defaults ->
    fold_left set_default defaults s = s.
Proof.
  induction defaults as [| d defaults IH]; intros s H; simpl.
  - reflexivity.
  - inversion H as [| ? ? Hd Hrest]; subst.
    assert (E : set_default s d = s).
    { destruct d as [k v | k v]; simpl in *.
      - destruct (raw_num s k); [reflexivity | congruence].
      - destruct (raw_int s k); [reflexivity | congruence]. }
    rewrite E. apply IH. exact Hrest.
Qed.

(** What start-up establishes. *)
Lemma init_session_inv (params_d : Params) (A : Q) (defaults : list commit)
    (s s' : RawSession) :
  init_session params_d A defaults s = Ok s' ->
  extends s s'
  /\ Forall (entry_present s') defaults
  /\ raw_log s' <> None
  /\ raw_num s' sessionStaffAbsenceRate <> None
  /\ raw_num s' sessionStaffOfficeRate <> None
  /\ raw_num s' sessionStaffTotalHoursPerYear <> None.
Proof.
  unfold init_session. intros H.
  set (s1 := fold_left set_default defaults s) in *.
  set (s2 := match raw_log s1 with
             | Some _ => s1
             | None => raw_set_log [log_header] s1
             end) in *.
  apply bind_Ok in H. destruct H as (s3 & H3 & H).
  apply bind_Ok in H. destruct H as (s4 & H4 & H5).
  apply set_default_num_extends in H3, H4, H5.
  destruct H3 as [E3 P3], H4 as [E4 P4], H5 as [E5 P5].
  assert (E1 : extends s s1) by apply fold_set_default_extends.
  assert (E2 : extends s1 s2 /\ raw_log s2 <> None).
  { unfold s2. destruct (raw_log s1) as [l |] eqn:El.
    - split; [apply extends_refl | congruence].
    - split; [| simpl; discriminate].
      repeat split; auto. intros l Hl. congruence. }
  destruct E2 as [E2 P2].
  assert (E25 : extends s2 s')
    by (eapply extends_trans; [exact E3 |];
        eapply extends_trans; [exact E4 | exact E5]).
  assert (E15 : extends s1 s') by (eapply extends_trans; [exact E2 | exact E25]).
  split; [eapply extends_trans; [exact E1 | exact E15] |].
  split.
  { eapply Forall_impl; [| apply (fold_set_default_present defaults s)].
    intros d Hd. eapply entry_present_extends; [exact E15 | exact Hd]. }
  assert (Hnum : forall k, forall s0, extends s0 s' ->
                           raw_num s0 k <> None -> raw_num s' k <> None).
  { intros k s0 (A0 & _) Hk. destruct (raw_num s0 k) as [w |] eqn:E;
      [| congruence]. rewrite (A0 k w E). discriminate. }
  split.
  { destruct E25 as (_ & _ & C). destruct (raw_log s2) as [l |] eqn:El;
      [| congruence]. rewrite (C l eq_refl). discriminate. }
  split; [apply (Hnum _ s3); [eapply extends_trans; eassumption | exact P3] |].
  split; [apply (Hnum _ s4); assumption | exact P5].
Qed.

(** X22: start-up never overwrites: every key the session holds before
    the start-up code runs keeps its value, the log included. *)
Theorem init_session_preserves (params_d : Params) (A : Q)
    (defaults : list commit) (s s' : RawSession) :
  init_session params_d A defaults s = Ok s' ->
  extends s s'.
Proof.
  intros H. apply init_session_inv in H. destruct H as [E _]. exact E.
Qed.

Lemma init_session_preserves_witness :
  exists s',
    init_session example_params 5 example_defaults
      (raw_set_int sessionStaffTotal 42 empty_session) = Ok s'
    /\ extends (raw_set_int sessionStaffTotal 42 empty_session) s'
    /\ raw_int s' sessionStaffTotal = Some 42%Z.
Proof.
  assert (H : exists s',
             init_session example_params 5 example_defaults
               (raw_set_int sessionStaffTotal 42 empty_session) = Ok s')
    by (eexists; vm_compute; reflexivity).
  destruct H as [s' H]. exists s'. split; [exact H |].
  pose proof (init_session_preserves _ _ _ _ _ H) as E.
  split; [exact E |].
  destruct E as (_ & B & _). apply B. reflexivity.
Defined.

(** X23: the start-up code is idempotent: run again on the session it has
    produced (as on every rerun of the script), it returns that session
    unchanged and raises nothing, whatever the configuration. *)
Theorem init_session_idempotent (params_d : Params) (A : Q)
    (defaults : list commit) (s s' : RawSession) :
  init_session params_d A defaults s = Ok s' ->
  init_session params_d A defaults s' = Ok s'.
Proof.
  intros H. apply init_session_inv in H.
  destruct H as (_ & Hd & Hlog & Ha & Ho & Hh).
  unfold init_session.
  rewrite (fold_set_default_fixed defaults s' Hd).
  destruct (raw_log s') as [l |]; [| congruence].
  rewrite (set_default_num_present _ _ s' Ha). cbn [bind].
  rewrite (set_default_num_present _ _ s' Ho). cbn [bind].
  apply set_default_num_present. exact Hh.
Qed.

Lemma init_session_idempotent_witness :
  exists s',
    init_session example_params 5 example_defaults empty_session = Ok s'
    /\ init_session example_params 5 example_defaults s' = Ok s'.
Proof.
  assert (H : exists s',
             init_session example_params 5 example_defaults empty_session
               = Ok s')
    by (eexists; vm_compute; reflexivity).
  destruct H as [s' H]. exists s'. split; [exact H |].
  exact (init_session_idempotent _ _ _ _ _ H).
Defined.

(** X24: on a session that holds neither [sessionStaffAbsenceRate] nor
    [sessionStaffTotalHoursPerYear], and with defaults that set neither,
    start-up (with a non-zero [MaxWorkDaysPerYear] and
    [MaxWorkDaysPerMonth]) stores (MaxWorkDaysPerYear -
    DefaultAbsencePerYear) / MaxWorkDaysPerYear as the absence rate and,
    from it, DefaultAbsencePerYear * (MaxHoursPerWeek / 5) as the total
    staff hours per year. *)
Theorem init_session_default_hours (params_d : Params) (A : Q)
    (defaults : list commit) (s : RawSession) :
  ~ MaxWorkDaysPerYear params_d == 0 ->
  ~ MaxWorkDaysPerMonth params_d == 0 ->
  raw_num (fold_left set_default defaults s) sessionStaffAbsenceRate = None ->
  raw_num (fold_left set_default defaults s) sessionStaffTotalHoursPerYear
    = None ->
  exists s' rate hours,
    init_session params_d A defaults s = Ok s'
    /\ raw_num s' sessionStaffAbsenceRate = Some rate
    /\ rate == (MaxWorkDaysPerYear params_d - A) / MaxWorkDaysPerYear params_d
    /\ raw_num s' sessionStaffTotalHoursPerYear = Some hours
    /\ hours == A * (MaxHoursPerWeek params_d / 5).
Proof.
  intros HY HM Ha Hh. unfold init_session.
  set (s1 := fold_left set_default defaults s) in *.
  set (s2 := match raw_log s1 with
             | Some _ => s1
             | None => raw_set_log [log_header] s1
             end).
  assert (Ha2 : raw_num s2 sessionStaffAbsenceRate = None)
    by (unfold s2; destruct (raw_log s1); exact Ha).
  assert (Hh2 : raw_num s2 sessionStaffTotalHoursPerYear = None)
    by (unfold s2; destruct (raw_log s1); exact Hh).
  set (rate := (MaxWorkDaysPerYear params_d - A) / MaxWorkDaysPerYear params_d).
  set (s3 := raw_set_num sessionStaffAbsenceRate rate s2).
  assert (E3 : set_default_num sessionStaffAbsenceRate
                 (fun _ => py_div (MaxWorkDaysPerYear params_d - A)
                                  (MaxWorkDaysPerYear params_d)) s2 = Ok s3).
  { unfold set_default_num. rewrite Ha2, (py_div_Ok _ _ HY). reflexivity. }
  rewrite E3. cbn [bind].
  assert (Hr3 : raw_num s3 sessionStaffAbsenceRate = Some rate) by reflexivity.
  assert (Hh3 : raw_num s3 sessionStaffTotalHoursPerYear = None) by exact Hh2.
  destruct (set_default_num sessionStaffOfficeRate
              (fun _ => py_div 4 (MaxWorkDaysPerMonth params_d)) s3)
    as [s4 | e] eqn:E4.
  2: { unfold set_default_num in E4.
       destruct (raw_num s3 sessionStaffOfficeRate); [discriminate |].
       rewrite (py_div_Ok _ _ HM) in E4. discriminate. }
  cbn [bind].
  assert (Hr4 : raw_num s4 sessionStaffAbsenceRate = Some rate).
  { apply set_default_num_extends in E4. destruct E4 as [(A4 & _) _].
    apply A4. exact Hr3. }
  assert (Hh4 : raw_num s4 sessionStaffTotalHoursPerYear = None).
  { unfold set_default_num in E4.
    destruct (raw_num s3 sessionStaffOfficeRate).
    - injection E4 as <-. exact Hh3.
    - rewrite (py_div_Ok _ _ HM) in E4. simpl in E4. injection E4 as <-.
      exact Hh3. }
  unfold set_default_num, raw_get_num. rewrite Hh4, Hr4. cbn [bind].
  eexists _, rate, _. split; [reflexivity |].
  split; [exact Hr4 |]. split; [reflexivity |].
  split; [reflexivity |].
  unfold rate. field. exact HY.
Qed.

Lemma init_session_default_hours_witness :
  exists s' rate hours,
    init_session example_params 5 example_defaults empty_session = Ok s'
    /\ raw_num s' sessionStaffAbsenceRate = Some rate
    /\ rate == (253 - 5) / 253
    /\ raw_num s' sessionStaffTotalHoursPerYear = Some hours
    /\ hours == 5 * (40 / 5).
Proof.
  apply (init_session_default_hours example_params 5 example_defaults
           empty_session); try reflexivity; unfold Qeq; simpl; lia.
Defined.

(** ** [fn_LoadFile]: the extension of the file name *)

Lemma last_cons_nonempty {A : Type} (x : A) (l : list A) (d : A) :
  l <> [] -> last (x :: l) d = last l d.
Proof. destruct l; [congruence | reflexivity]. Qed.

(** The segments [s.split(c)] returns: the string itself when it does not
    contain [c]; otherwise at least two segments, the last one being what
    follows the last [c]. *)
Lemma str_split_facts (c : Ascii.ascii) (s : string) :
  (str_contains c s = false -> str_split c s = [s])
  /\ (str_contains c s = true ->
      (2 <= length (str_split c s))%nat
      /\ exists stem,
           s = (stem ++ String c (last (str_split c s) EmptyString))%string)
  /\ str_contains c (last (str_split c s) EmptyString) = false.
Proof.
  induction s as [| a s' (IH1 & IH2 & IH3)].
  - simpl. repeat split; try reflexivity; discriminate.
  - simpl. destruct (Ascii.eqb a c) eqn:Eac.
    + apply Ascii.eqb_eq in Eac. subst a.
      assert (Hne : str_split c s' <> []).
      { destruct (str_contains c s') eqn:Ec.
        - destruct (IH2 eq_refl) as [Hlen _].
          destruct (str_split c s'); [simpl in Hlen; lia | discriminate].
        - rewrite (IH1 eq_refl). discriminate. }
      rewrite (last_cons_nonempty _ _ _ Hne).
      split; [discriminate |]. split; [| exact IH3].
      intros _. split.
      * destruct (str_split c s'); [congruence | simpl; lia].
      * destruct (str_contains c s') eqn:Ec.
        -- destruct (IH2 eq_refl) as [_ [stem Hstem]].
           exists (String c stem). simpl. f_equal. exact Hstem.
        -- exists EmptyString. simpl. rewrite (IH1 eq_refl). reflexivity.
    + destruct (str_contains c s') eqn:Ec.
      * destruct (IH2 eq_refl) as [Hlen [stem Hstem]].
        destruct (str_split c s') as [| h [| h2 t]] eqn:Es;
          try (simpl in Hlen; lia).
        split; [discriminate |]. split; [| exact IH3].
        intros _. split; [simpl; lia |].
        exists (String a stem). simpl. f_equal. exact Hstem.
      * rewrite (IH1 eq_refl). simpl.
        split; [reflexivity |]. split; [discriminate |].
        rewrite Eac. exact Ec.
Qed.

Lemma str_split_last_app (c : Ascii.ascii) (ext : string) :
  str_contains c ext = false ->
  forall stem,
    last (str_split c (stem ++ String c ext)%string) EmptyString = ext.
Proof.
  intros Hext.
  destruct (str_split_facts c ext) as (Hs & _ & _).
  induction stem as [| a stem IH]; simpl.
  - rewrite Ascii.eqb_refl, (Hs Hext). reflexivity.
  - assert (Hc : str_contains c (stem ++ String c ext)%string = true).
    { clear IH. induction stem as [| b stem IHs]; simpl.
      - rewrite Ascii.eqb_refl. reflexivity.
      - destruct (Ascii.eqb b c); [reflexivity | exact IHs]. }
    destruct (str_split_facts c (stem ++ String c ext)%string) as (_ & H2 & _).
    destruct (H2 Hc) as [Hlen _].
    destruct (str_split c (stem ++ String c ext)%string) as [| h [| h2 t]] eqn:Es;
      try (simpl in Hlen; lia).
    destruct (Ascii.eqb a c); exact IH.
Qed.

Lemma lower_ascii_dot (a : Ascii.ascii) :
  Ascii.eqb (lower_ascii a) dot = Ascii.eqb a dot.
Proof.
  destruct a as [[] [] [] [] [] [] [] []]; reflexivity.
Qed.

Lemma str_lower_contains_dot (s : string) :
  str_contains dot (str_lower s) = str_contains dot s.
Proof.
  induction s as [| a s IH]; simpl; [reflexivity |].
  rewrite lower_ascii_dot, IH. reflexivity.
Qed.

Section LoadFileProperties.
Variables Y E : Type.
Variable files : string -> option string.
Variable yaml_load : string -> E + Y.

(** X25: [fn_LoadFile] returns only for a file that exists and whose
    name, in lower case, ends in ".md" or ".yml"; what it returns is then
    the text of the Markdown file, or the object the loader parsed from
    the contents of the YAML file. *)
Theorem fn_LoadFile_returns (filename : string) (o : option (loaded Y)) :
  fn_LoadFile Y E files yaml_load filename = Returned o ->
  exists content stem ext,
    files filename = Some content
    /\ str_lower filename = (stem ++ String dot ext)%string
    /\ ((ext = "md"%string /\ o = Some (LoadedText content))
        \/ (ext = "yml"%string
            /\ exists y, yaml_load content = inr y
                         /\ o = Some (LoadedYaml y))).
Proof.
  unfold fn_LoadFile. intros H.
  destruct (files filename) as [content |]; [| discriminate].
  destruct (str_contains dot filename) eqn:Ec; [| discriminate]. simpl in H.
  rewrite <- str_lower_contains_dot in Ec.
  destruct (str_split_facts dot (str_lower filename)) as (_ & H2 & _).
  destruct (H2 Ec) as [_ [stem Hstem]].
  set (ext := last (str_split dot (str_lower filename)) EmptyString) in *.
  exists content, stem, ext. split; [reflexivity |]. split; [exact Hstem |].
  unfold acceptable_filetypes in H. simpl in H.
  destruct (String.eqb ext "md") eqn:Emd.
  - apply String.eqb_eq in Emd. left. split; [exact Emd |].
    rewrite Emd in H. simpl in H. injection H as <-. reflexivity.
  - destruct (String.eqb ext "yml") eqn:Eyml; [| discriminate].
    apply String.eqb_eq in Eyml. right. split; [exact Eyml |].
    simpl in H. destruct (yaml_load content) as [e | y]; [discriminate |].
    injection H as <-. exists y. split; reflexivity.
Qed.

(** X26: for an existing file whose name ends in ".md", in any mix of
    upper and lower case, [fn_LoadFile] returns the text of the file. *)
Theorem fn_LoadFile_markdown (filename content stem : string) :
  files filename = Some content ->
  str_lower filename = (stem ++ ".md")%string ->
  fn_LoadFile Y E files yaml_load filename
  = Returned (Some (LoadedText content)).
Proof.
  intros Hf Hname. unfold fn_LoadFile. rewrite Hf.
  assert (Hc : str_contains dot filename = true).
  { rewrite <- str_lower_contains_dot, Hname.
    clear. induction stem as [| b stem IH]; simpl; [reflexivity |].
    destruct (Ascii.eqb b dot); [reflexivity | exact IH]. }
  rewrite Hc. simpl negb. cbv iota.
  rewrite Hname.
  change (stem ++ ".md")%string with (stem ++ String dot "md")%string.
  rewrite (str_split_last_app dot "md" eq_refl stem). reflexivity.
Qed.

(** X27: an existing file whose name ends in ".yml" in any mix of upper
    and lower case is handed to the YAML loader: the call returns the
    parsed object, or fails with the loader's error. *)
Theorem fn_LoadFile_yaml (filename content stem : string) :
  files filename = Some content ->
  str_lower filename = (stem ++ ".yml")%string ->
  fn_LoadFile Y E files yaml_load filename
  = match yaml_load content with
    | inr y => Returned (Some (LoadedYaml y))
    | inl e => LoaderError e
    end.
Proof.
  intros Hf Hname. unfold fn_LoadFile. rewrite Hf.
  assert (Hc : str_contains dot filename = true).
  { rewrite <- str_lower_contains_dot, Hname.
    clear. induction stem as [| b stem IH]; simpl; [reflexivity |].
    destruct (Ascii.eqb b dot); [reflexivity | exact IH]. }
  rewrite Hc. simpl negb. cbv iota.
  rewrite Hname.
  change (stem ++ ".yml")%string with (stem ++ String dot "yml")%string.
  rewrite (str_split_last_app dot "yml" eq_refl stem). reflexivity.
Qed.
End LoadFileProperties.

Lemma fn_LoadFile_returns_witness :
  exists content stem ext,
    example_files "config.yml" = Some content
    /\ str_lower "config.yml" = (stem ++ String dot ext)%string
    /\ ((ext = "md"%string /\ Some (LoadedYaml tt) = Some (LoadedText content))
        \/ (ext = "yml"%string
            /\ exists y, example_yaml_load content = inr y
                         /\ Some (LoadedYaml tt) = Some (LoadedYaml y))).
Proof.
  apply (fn_LoadFile_returns unit string example_files example_yaml_load
           "config.yml" (Some (LoadedYaml tt))).
  reflexivity.
Defined.

Lemma fn_LoadFile_markdown_witness :
  fn_LoadFile unit string example_files example_yaml_load "README.MD"
  = Returned (Some (LoadedText "# Read me")).
Proof.
  apply (fn_LoadFile_markdown unit string example_files example_yaml_load
           "README.MD" "# Read me" "readme"); reflexivity.
Defined.

Lemma fn_LoadFile_yaml_witness :
  fn_LoadFile unit string example_files example_yaml_load "config.yml"
  = match example_yaml_load "" with
    | inr y => Returned (Some (LoadedYaml y))
    | inl e => LoaderError e
    end.
Proof.
  apply (fn_LoadFile_yaml unit string example_files example_yaml_load
           "config.yml" "" "config"); reflexivity.
Defined.

(** ** From the staffing and commute fragments to the WFH fragment *)

(** X28: after a confirmed staffing run and a confirmed commute run on
    valid inputs, the session holds what the WFH fragment reads in the
    ranges it needs: the headcount of the staffing run, non-negative staff
    hours, an office rate in [0, 1], hence non-negative WFH hours.  The
    commute confirmation leaves the staffing values in place. *)
Theorem staff_then_commute_session (params_d : Params) (sinp : StaffInputs)
    (cinp : CommuteInputs) (st st1 st2 : SessionState) :
  0 < MaxWorkDaysPerWeek params_d ->
  ~ MaxWorkDaysPerYear params_d == 0 ->
  0 <= MinHoursPerWeek params_d ->
  MinHoursPerWeek params_d <= inject_Z (fteHoursPerWeek sinp) ->
  inject_Z (fteHoursPerWeek sinp) <= MaxHoursPerWeek params_d ->
  fteHoursPerWeek sinp <> 0%Z ->
  (0 <= total_staff_num sinp)%Z ->
  (0 <= part_time_slider sinp < 100)%Z ->
  inject_Z (daysHolidayPerYear sinp) + absenceDaysPerYear sinp
    <= MaxWorkDaysPerYear params_d ->
  0 < MaxWorkDaysPerMonth params_d ->
  (0 <= sliderOfficeVisits cinp)%Z ->
  inject_Z (sliderOfficeVisits cinp) <= MaxWorkDaysPerMonth params_d ->
  fn_FormStaff params_d sinp true st = Ok st1 ->
  fn_FormCommute params_d cinp true st1 = Ok st2 ->
  int st2 sessionStaffTotal = total_staff_num sinp
  /\ 0 <= num st2 sessionStaffTotalHoursPerYear
  /\ 0 <= num st2 sessionStaffOfficeRate
  /\ num st2 sessionStaffOfficeRate <= 1
  /\ 0 <= wfhHours st2.
Proof.
  intros HW HY Hmin Hle Hmax Hfte Ht Hs Hdays HM Hv0 Hv1 H1 H2.
  destruct (staff_values_bounds params_d sinp HW HY Hmin Hle Hmax Hfte Ht Hs Hdays)
    as (v & Hv & _ & _ & Hhours & Htotal).
  unfold fn_FormStaff in H1. rewrite Hv in H1. simpl in H1.
  injection H1 as <-.
  unfold fn_FormCommute in H2. apply bind_Ok in H2.
  destruct H2 as (w & Hw & H2). injection H2 as <-.
  pose proof (commute_values_office_rate _ _ _ _ HM Hv0 Hv1 Hw) as [Hr0 Hr1].
  assert (E1 : int (fn_Refresher (Some (commute_commit_l w))
                      (fn_Refresher (Some (staff_commit_l v)) st))
                   sessionStaffTotal = newStaffTotal v) by reflexivity.
  assert (E2 : num (fn_Refresher (Some (commute_commit_l w))
                      (fn_Refresher (Some (staff_commit_l v)) st))
                   sessionStaffTotalHoursPerYear = newTtlHrsPerYr v)
    by reflexivity.
  assert (E3 : num (fn_Refresher (Some (commute_commit_l w))
                      (fn_Refresher (Some (staff_commit_l v)) st))
                   sessionStaffOfficeRate = newOfficeRate w) by reflexivity.
  unfold wfhHours. rewrite E1, E2, E3.
  split; [exact Htotal |]. split; [exact Hhours |].
  split; [exact Hr0 |]. split; [exact Hr1 |].
  apply Qmult_le_0_compat; [exact Hhours | lra].
Qed.

Lemma staff_then_commute_session_witness :
  exists st1 st2,
    fn_FormStaff example_params example_staff_inputs true (fresh_session 0)
      = Ok st1
    /\ fn_FormCommute example_params example_commute_inputs true st1 = Ok st2
    /\ int st2 sessionStaffTotal = 100%Z
    /\ 0 <= num st2 sessionStaffTotalHoursPerYear
    /\ 0 <= num st2 sessionStaffOfficeRate
    /\ num st2 sessionStaffOfficeRate <= 1
    /\ 0 <= wfhHours st2.
Proof.
  assert (H1 : exists st1,
             fn_FormStaff example_params example_staff_inputs true
               (fresh_session 0) = Ok st1)
    by (eexists; vm_compute; reflexivity).
  destruct H1 as [st1 H1].
  assert (H2 : exists st2,
             fn_FormCommute example_params example_commute_inputs true st1
               = Ok st2).
  { pose proof H1 as H1'. unfold fn_FormStaff in H1'. apply bind_Ok in H1'.
    destruct H1' as (v & Hv & H1'). injection H1' as <-.
    vm_compute in Hv. injection Hv as <-.
    eexists. vm_compute. reflexivity. }
  destruct H2 as [st2 H2]. exists st1, st2.
  split; [exact H1 |]. split; [exact H2 |].
  apply (staff_then_commute_session example_params example_staff_inputs
           example_commute_inputs (fresh_session 0) st1 st2);
    try exact H1; try exact H2;
    simpl; try (unfold Qeq, Qlt, Qle; simpl); lia.
Defined.

(** X29: when the WFH fragment returns on valid inputs (non-negative
    factors in the configuration, laptop and phone percentages within
    0..100, non-negative staff hours, an office rate of at most 1, a
    non-negative headcount), its IT, lighting, heating and total WFH
    emissions are all non-negative, whatever the generator drew. *)
Theorem wfh_emissions_signs (params_d : Params) (inp : WfhInputs)
    (st : SessionState) (g g' : Rng) (v : WfhValues) :
  wfh_inputs_valid params_d inp st ->
  wfh_values params_d inp st g = Ok (v, g') ->
  0 <= newEmissionsIt v /\ 0 <= newEmissionsLight v
  /\ 0 <= newEmissionsHeat v /\ 0 <= newEmissionsWfh v.
Proof.
  intros Hvalid H. exact (wfh_emissions_nonneg _ _ _ _ _ _ Hvalid H).
Qed.

Lemma wfh_emissions_signs_witness :
  exists v g',
    wfh_inputs_valid example_params example_wfh_inputs (fresh_session 100)
    /\ wfh_values example_params example_wfh_inputs (fresh_session 100) zero_rng
       = Ok (v, g')
    /\ 0 <= newEmissionsIt v /\ 0 <= newEmissionsLight v
    /\ 0 <= newEmissionsHeat v /\ 0 <= newEmissionsWfh v.
Proof.
  assert (Hv : wfh_inputs_valid example_params example_wfh_inputs
                 (fresh_session 100)).
  { unfold wfh_inputs_valid. simpl.
    repeat split; try lia; try (unfold Qle; simpl; lia).
    intros k v [H | [H | []]]; injection H as _ <-; unfold Qle; simpl; lia. }
  assert (H : exists v g',
             wfh_values example_params example_wfh_inputs (fresh_session 100)
               zero_rng = Ok (v, g'))
    by (eexists _, _; vm_compute; reflexivity).
  destruct H as (v & g' & H). exists v, g'.
  split; [exact Hv |]. split; [exact H |].
  exact (wfh_emissions_signs _ _ _ _ _ _ Hv H).
Defined.
